(** * students_database: the request handlers over a model of the students table

    A shallow embedding of [duckdb_demo.go] (the handlers registered by
    [main.go]): every handler becomes a function from the current contents of
    the [students] table and the decoded request to the new contents and the
    HTTP response.  The SQL statements the handlers issue are given their
    meaning on a list of rows kept in insertion order; the column types and
    the PRIMARY KEY of the CREATE TABLE statement of [initDB] are enforced by
    the statement executors.

    Requests are served one after the other.  What the engine does beyond
    the statements' meaning is left out: a statement fails only for a reason
    the table and the statement determine (an id the table holds already, an
    age no INTEGER holds, a BIGINT sum out of range, a literal that does not
    parse), BEGIN, PREPARE and COMMIT succeed, and the [gpa FLOAT] column
    keeps the number it is given (its rounding to single precision is not
    modelled).  The texts of [Error] stand for the engine's messages. *)

From Stdlib Require Import ZArith QArith Qround String Ascii List Lia Bool DecimalString.
From Stdlib Require Import Permutation.
Import ListNotations.

Open Scope string_scope.
Open Scope Z_scope.

(* ===================================================================== *)
(** ** Machine integers *)

Definition MaxInt64 : Z := 9223372036854775807.
Definition MinInt64 : Z := -9223372036854775808.
Definition MaxInt32 : Z := 2147483647.
Definition MinInt32 : Z := -2147483648.

Definition in_int64 (n : Z) : bool := (MinInt64 <=? n) && (n <=? MaxInt64).
Definition in_int32 (n : Z) : bool := (MinInt32 <=? n) && (n <=? MaxInt32).

(** Go's [int64] arithmetic wraps around: the result of an operation is
    reduced into [MinInt64 .. MaxInt64]. *)
Definition wrap64 (n : Z) : Z := (n - MinInt64) mod 2 ^ 64 + MinInt64.

(* ===================================================================== *)
(** ** Floating point values

    A finite [float64] denotes a rational number, and the handlers only
    compare such values and print them; both are functions of the number
    denoted.  The request bodies carry finite values only ([encoding/json]
    refuses anything else), so a decoded GPA is the rational it denotes.
    [strconv.ParseFloat] can also produce the infinities and NaN. *)

Inductive float64 : Type :=
| NaN
| Inf (negative : bool)
| Finite (q : Q).

(** Go's [<] on two finite values. *)
Definition Qltb (a b : Q) : bool := negb (Qle_bool b a).

(* ===================================================================== *)
(** ** The part of Go's standard library the handlers call *)

Definition code (c : ascii) : Z := Z.of_N (N_of_ascii c).

Module strings.

(** The white space of [unicode.IsSpace], UTF-8 encoded: the six ASCII
    characters, U+0085, U+00A0, U+1680, U+2000..U+200A, U+2028, U+2029,
    U+202F, U+205F and U+3000.  [space_width l] is the number of bytes of
    the white space character [l] starts with, 0 when it starts with none. *)
Definition space_width (l : list Z) : nat :=
  match l with
  | 9 :: _ | 10 :: _ | 11 :: _ | 12 :: _ | 13 :: _ | 32 :: _ => 1%nat
  | 194 :: 133 :: _ | 194 :: 160 :: _ => 2%nat
  | 225 :: 154 :: 128 :: _ => 3%nat
  | 226 :: 128 :: b :: _ =>
      if ((128 <=? b) && (b <=? 138)) || (b =? 168) || (b =? 169) || (b =? 175)
      then 3%nat else 0%nat
  | 226 :: 129 :: 159 :: _ => 3%nat
  | 227 :: 128 :: 128 :: _ => 3%nat
  | _ => 0%nat
  end.

(** The same read from the end of the string: [l] is the reversed text. *)
Definition space_width_rev (l : list Z) : nat :=
  match l with
  | 9 :: _ | 10 :: _ | 11 :: _ | 12 :: _ | 13 :: _ | 32 :: _ => 1%nat
  | 133 :: 194 :: _ | 160 :: 194 :: _ => 2%nat
  | 128 :: 154 :: 225 :: _ => 3%nat
  | b :: 128 :: 226 :: _ =>
      if ((128 <=? b) && (b <=? 138)) || (b =? 168) || (b =? 169) || (b =? 175)
      then 3%nat else 0%nat
  | 159 :: 129 :: 226 :: _ => 3%nat
  | 128 :: 128 :: 227 :: _ => 3%nat
  | _ => 0%nat
  end.

Fixpoint trim_with (width : list Z -> nat) (fuel : nat) (l : list ascii) : list ascii :=
  match fuel with
  | O => l
  | S fuel' =>
      match width (map code l) with
      | O => l
      | w => trim_with width fuel' (skipn w l)
      end
  end.

(** [strings.TrimSpace]: leading and trailing white space removed.  The fuel
    is the length of the text, one unit per character dropped at most. *)
Definition TrimSpace (s : string) : string :=
  let l := list_ascii_of_string s in
  let l := trim_with space_width (List.length l) l in
  let r := trim_with space_width_rev (List.length l) (rev l) in
  string_of_list_ascii (rev r).

(** [strings.ReplaceAll(s, "'", "''")] and the like: every occurrence of
    the one-character text [old] replaced by [new]. *)
Fixpoint ReplaceAll (s : string) (old : ascii) (new : string) : string :=
  match s with
  | EmptyString => EmptyString
  | String c rest =>
      if Ascii.eqb c old then new ++ ReplaceAll rest old new
      else String c (ReplaceAll rest old new)
  end.

(** [strings.Split(s, sep)] for a one-character separator: the pieces
    between the separators, one more than there are separators. *)
Fixpoint Split (s : string) (sep : ascii) : list string :=
  match s with
  | EmptyString => [EmptyString]
  | String c rest =>
      if Ascii.eqb c sep then EmptyString :: Split rest sep
      else match Split rest sep with
           | piece :: pieces => String c piece :: pieces
           | [] => [String c EmptyString]
           end
  end.


End strings.

Module strconv.

Inductive NumError : Type := ErrSyntax | ErrRange.

Definition maxUint64 : Z := 2 ^ 64 - 1.

Definition digit (c : ascii) : option Z :=
  let n := code c in
  if (48 <=? n) && (n <=? 57) then Some (n - 48) else None.

(** The digit loop of [ParseUint(s, 10, 64)].  A character that is no
    digit is a syntax error; the loop stops with a range error at the first
    digit that takes the number past [maxUint64], before it reads on. *)
Fixpoint ParseUint_loop (s : string) (n : Z) : Z * option NumError :=
  match s with
  | EmptyString => (n, None)
  | String c rest =>
      match digit c with
      | None => (0, Some ErrSyntax)
      | Some d =>
          if n >=? maxUint64 / 10 + 1 then (maxUint64, Some ErrRange)
          else
            let n1 := n * 10 + d in
            if n1 >? maxUint64 then (maxUint64, Some ErrRange)
            else ParseUint_loop rest n1
      end
  end.

Definition ParseUint (s : string) : Z * option NumError :=
  match s with
  | EmptyString => (0, Some ErrSyntax)
  | _ => ParseUint_loop s 0
  end.

(** [ParseInt(s, 10, 64)]: an optional sign, then [ParseUint]; a number out
    of range is replaced by the nearest [int64] together with [ErrRange]. *)
Definition ParseInt (s : string) : Z * option NumError :=
  match s with
  | EmptyString => (0, Some ErrSyntax)
  | String c rest =>
      let neg := Ascii.eqb c "-" in
      let digits := if Ascii.eqb c "+" || neg then rest else s in
      match ParseUint digits with
      | (_, Some ErrSyntax) => (0, Some ErrSyntax)
      | (un, _) =>
          let cutoff := 2 ^ 63 in
          if negb neg && (un >=? cutoff) then (cutoff - 1, Some ErrRange)
          else if neg && (un >? cutoff) then (- cutoff, Some ErrRange)
          else (if neg then - un else un, None)
      end
  end.

(** [strconv.Atoi]: on a 64-bit platform it returns what
    [ParseInt(s, 10, 0)] returns (its fast path for short texts computes
    the same value and the same kind of error). *)
Definition Atoi (s : string) : Z * option NumError := ParseInt s.

(** [strconv.Itoa] *)
Definition Itoa (n : Z) : string := NilEmpty.string_of_int (Z.to_int n).

End strconv.

Module fmt.

(** The nearest integer, a tie going to the even one: how [strconv]
    rounds a float to a fixed number of decimals. *)
Definition round_half_even (q : Q) : Z :=
  let f := Qfloor q in
  match Qcompare (q - inject_Z f)%Q (1 # 2)%Q with
  | Lt => f
  | Gt => f + 1
  | Eq => if Z.even f then f else f + 1
  end.

(** The verb [%.2f]: the value printed with two decimals.  The text is
    represented by the number of hundredths it spells ("3.44" by 344). *)
Definition Sprintf_2f (q : Q) : Z := round_half_even (q * 100)%Q.

End fmt.

Import strings strconv.

(* ===================================================================== *)
(** ** The data model *)

(** A row of [students(id, name, age, gpa, organization_name)]. *)
Record Student : Type := mkStudent {
  ID : Z;
  Name : string;
  Age : Z;
  GPA : Q;
  OrganizationName : string
}.

(** The struct a request body is decoded into (no id: the handlers assign it). *)
Record StudentInput : Type := mkInput {
  in_Name : string;
  in_Age : Z;
  in_GPA : Q;
  in_Org : string
}.

(** What [json.NewDecoder(r.Body).Decode] hands back: the text of the error,
    or the decoded value. *)
Definition Decoded (A : Type) : Type := (string + A)%type.

Inductive Body : Type :=
| NoBody
| Text (msg : string)
| ErrorJson (msg : string)
| CreatedJson (id : Z) (message : string)
| MessageJson (message : string)
| BulkJson (message count : string)
| StudentsJson (students : list Student).

Record Response : Type := mkResponse {
  StatusCode : Z;
  body : Body
}.

Definition StatusOK : Z := 200.
Definition StatusCreated : Z := 201.
Definition StatusBadRequest : Z := 400.
Definition StatusNotFound : Z := 404.
Definition StatusInternalServerError : Z := 500.

(** [http.Error(w, msg, code)] *)
Definition http_Error (msg : string) (status : Z) : Response := mkResponse status (Text msg).

(** [jsonError(w, status, msg)] *)
Definition jsonError (status : Z) (msg : string) : Response := mkResponse status (ErrorJson msg).

(* ===================================================================== *)
(** ** The table and the statements run against it *)

Definition table : Type := list Student.

Definition ids (t : table) : list Z := map ID t.

Inductive DbError : Type :=
| OutOfRange          (* overflow of a BIGINT expression *)
| ConversionError     (* a value that does not fit its column's type *)
| DuplicateKey        (* the PRIMARY KEY constraint *)
| ParserError.        (* a statement text that is no statement *)

(** [err.Error()] *)
Definition Error (e : DbError) : string :=
  match e with
  | OutOfRange => "Out of Range Error"
  | ConversionError => "Conversion Error"
  | DuplicateKey => "Constraint Error: Duplicate key violates primary key constraint"
  | ParserError => "Parser Error"
  end.

Definition Result (A : Type) : Type := (DbError + A)%type.

(** [initDB] drops the table and creates it anew: the service starts with
    no row. *)
Definition initDB : table := [].

(** [MAX(id)]: NULL on the empty table. *)
Fixpoint max_id (t : table) : option Z :=
  match t with
  | [] => None
  | r :: t' =>
      match max_id t' with
      | None => Some (ID r)
      | Some m => Some (Z.max (ID r) m)
      end
  end.

Definition COALESCE (v : option Z) (default : Z) : Z :=
  match v with
  | Some x => x
  | None => default
  end.

(** [SELECT COALESCE(MAX(id), 0) + 1 FROM students]: the sum is a BIGINT, and
    the engine reports a sum that is none as an error. *)
Definition query_next_id (t : table) : Result Z :=
  let v := COALESCE (max_id t) 0 + 1 in
  if in_int64 v then inr v else inl OutOfRange.

(** [SELECT COALESCE(MAX(id), 0) FROM students] *)
Definition query_max_id (t : table) : Result Z := inr (COALESCE (max_id t) 0).

(** [SELECT COUNT( * ) FROM students WHERE id=?] *)
Definition query_count_id (t : table) (id : Z) : Result Z :=
  inr (Z.of_nat (List.length (filter (fun r => ID r =? id) t))).

(** [INSERT INTO students (id, name, age, gpa, organization_name) VALUES
    (?, ?, ?, ?, ?)]: [age INTEGER] takes 32-bit values only and
    [id BIGINT PRIMARY KEY] refuses an id the table already holds; the new row
    goes after the others. *)
Definition exec_insert (t : table) (r : Student) : Result table :=
  if negb (in_int32 (Age r)) then inl ConversionError
  else if existsb (Z.eqb (ID r)) (ids t) then inl DuplicateKey
  else inr (t ++ [r])%list.

(** The UPDATE statement [updateStudent] prints with [fmt.Sprintf]: the two
    texts put between quotes, the two integers, and the GPA as the
    hundredths that [%.2f] spelled. *)
Record UpdateText : Type := mkUpdateText {
  name_literal : string;
  age_literal : Z;
  gpa_literal : Z;
  org_literal : string;
  id_literal : Z
}.

(** How the engine reads the inside of a quoted literal: two quotes are one
    quote of the text, and a quote alone would end the literal, leaving a
    statement that does not parse. *)
Fixpoint sql_unquote (s : string) : option string :=
  match s with
  | EmptyString => Some EmptyString
  | String c rest =>
      if Ascii.eqb c "'" then
        match rest with
        | String d rest' =>
            if Ascii.eqb d "'" then option_map (String "'") (sql_unquote rest')
            else None
        | EmptyString => None
        end
      else option_map (String c) (sql_unquote rest)
  end.

(** [UPDATE students SET name = '..', age = .., gpa = .., organization_name
    = '..' WHERE id = ..]: every row with that id gets the four values, its id
    and its place in the table stay. *)
Definition exec_update (t : table) (q : UpdateText) : Result table :=
  match sql_unquote (name_literal q), sql_unquote (org_literal q) with
  | Some name, Some org =>
      if negb (in_int32 (age_literal q)) then inl ConversionError
      else inr (map (fun r =>
                       if ID r =? id_literal q
                       then mkStudent (ID r) name (age_literal q) (gpa_literal q # 100) org
                       else r) t)
  | _, _ => inl ParserError
  end.

(** [DELETE FROM students WHERE id=?] with the id already a BIGINT. *)
Definition exec_delete (t : table) (id : Z) : table :=
  filter (fun r => negb (ID r =? id)) t.

(** *** Transactions *)

Record Tx : Type := mkTx {
  snapshot : table;   (* the table as it was at BEGIN *)
  pending : table     (* the table as the transaction's statements left it *)
}.

Definition BeginTx (db : table) : Tx := mkTx db db.
Definition Rollback (tx : Tx) : table := snapshot tx.
Definition Commit (tx : Tx) : table := pending tx.

(** [tx.Exec] / [stmt.Exec]: the statement runs on the pending table. *)
Definition Tx_Exec (tx : Tx) (stmt : table -> Result table) : Result Tx :=
  match stmt (pending tx) with
  | inl e => inl e
  | inr t => inr (mkTx (snapshot tx) t)
  end.

(** *** The WHERE clauses of the SELECT statements *)

(** The pattern language of LIKE: [%] stands for any text, [_] for any one
    character, every other character for itself, upper and lower case being
    different characters; no character escapes another.  (A character is a
    byte of the text here.) *)
Fixpoint like (pattern : string) : string -> bool :=
  match pattern with
  | EmptyString => fun s => match s with EmptyString => true | _ => false end
  | String p pattern' =>
      if Ascii.eqb p "%" then
        fix any (s : string) : bool :=
          like pattern' s ||
          match s with
          | EmptyString => false
          | String _ s' => any s'
          end
      else if Ascii.eqb p "_" then
        fun s => match s with
                 | EmptyString => false
                 | String _ s' => like pattern' s'
                 end
      else
        fun s => match s with
                 | EmptyString => false
                 | String c s' => Ascii.eqb p c && like pattern' s'
                 end
  end.

(** The engine's order on floating point values: NaN is the greatest, the
    infinities are the least and the greatest of the rest. *)
Definition sql_float_le (a b : float64) : bool :=
  match a, b with
  | _, NaN => true
  | NaN, _ => false
  | Inf true, _ => true
  | _, Inf false => true
  | Inf false, _ => false
  | _, Inf true => false
  | Finite x, Finite y => Qle_bool x y
  end.

Inductive Cond : Type :=
| AgeBetween (lo hi : Z)            (* age BETWEEN ? AND ? *)
| GpaBetween (lo hi : float64)      (* gpa BETWEEN ? AND ? *)
| OrgIn (orgs : list string)        (* organization_name IN (?,..,?) *)
| NameLike (pattern : string).      (* name LIKE ? *)

Definition holds (c : Cond) (r : Student) : bool :=
  match c with
  | AgeBetween lo hi => (lo <=? Age r) && (Age r <=? hi)
  | GpaBetween lo hi => sql_float_le lo (Finite (GPA r)) && sql_float_le (Finite (GPA r)) hi
  | OrgIn orgs => existsb (String.eqb (OrganizationName r)) orgs
  | NameLike pattern => like pattern (Name r)
  end.

(** [SELECT id, name, age, gpa, organization_name FROM students WHERE 1=1
    AND c1 AND .. AND cn]: the rows that meet every condition, in the table's
    order. *)
Definition Query (t : table) (conds : list Cond) : Result (list Student) :=
  inr (filter (fun r => forallb (fun c => holds c r) conds) t).

(* ===================================================================== *)
(** ** The handlers *)

Definition NoOrganization : string := "No Organization".

(** [POST /students] *)
Definition insertStudent (db : table) (request : Decoded StudentInput) : table * Response :=
  match request with
  | inl err => (db, http_Error ("Invalid JSON: " ++ err) StatusBadRequest)
  | inr s =>
      let name := TrimSpace (in_Name s) in
      let org := TrimSpace (in_Org s) in
      if (in_Age s <? 0) || (in_Age s >? 120) then
        (db, http_Error "Invalid age" StatusBadRequest)
      else if Qltb (in_GPA s) 0 || Qltb 4 (in_GPA s) then
        (db, http_Error "Invalid GPA" StatusBadRequest)
      else
        let org := if String.eqb org "" then NoOrganization else org in
        match query_next_id db with
        | inl _ =>
            (db, http_Error "Database error: Failed to get next ID" StatusInternalServerError)
        | inr newID =>
            match exec_insert db (mkStudent newID name (in_Age s) (in_GPA s) org) with
            | inl err =>
                (db, http_Error ("Database error: " ++ Error err) StatusInternalServerError)
            | inr db' =>
                (db', mkResponse StatusCreated (CreatedJson newID "Student created successfully"))
            end
        end
  end.

(** [PUT /students/{id}] *)
Definition updateStudent (db : table) (idStr : string) (request : Decoded StudentInput)
  : table * Response :=
  match Atoi idStr with
  | (_, Some _) => (db, jsonError StatusBadRequest "Invalid student ID")
  | (id, None) =>
      match request with
      | inl _ => (db, jsonError StatusBadRequest "Invalid JSON body")
      | inr s =>
          let name := TrimSpace (in_Name s) in
          let org := TrimSpace (in_Org s) in
          if (in_Age s <? 0) || (in_Age s >? 120) then
            (db, jsonError StatusBadRequest "Age out of range")
          else if Qltb (in_GPA s) 0 || Qltb 4 (in_GPA s) then
            (db, jsonError StatusBadRequest "GPA out of range")
          else
            let org := if String.eqb org "" then NoOrganization else org in
            match query_count_id db id with
            | inl err => (db, jsonError StatusInternalServerError (Error err))
            | inr exists_ =>
                if exists_ =? 0 then (db, jsonError StatusNotFound "Student not found")
                else
                  let tx := BeginTx db in
                  let safeName := ReplaceAll name "'" "''" in
                  let safeOrg := ReplaceAll org "'" "''" in
                  let query :=
                    mkUpdateText safeName (in_Age s) (fmt.Sprintf_2f (in_GPA s)) safeOrg id in
                  match Tx_Exec tx (fun t => exec_update t query) with
                  | inl err =>
                      (Rollback tx,
                       jsonError StatusInternalServerError ("Update failed: " ++ Error err))
                  | inr tx' =>
                      (Commit tx', mkResponse StatusOK (MessageJson "Student updated successfully"))
                  end
            end
      end
  end.

(** The loop of [bulkInsertStudents]: one execution of the prepared INSERT
    per student, the id counted up in the handler; the first failure ends
    the loop. *)
Fixpoint bulk_loop (tx : Tx) (nextID : Z) (students : list StudentInput) : Result Tx :=
  match students with
  | [] => inr tx
  | s :: rest =>
      match Tx_Exec tx (fun t =>
              exec_insert t (mkStudent nextID (in_Name s) (in_Age s) (in_GPA s) (in_Org s))) with
      | inl err => inl err
      | inr tx' => bulk_loop tx' (wrap64 (nextID + 1)) rest
      end
  end.

(** [POST /students/bulk] *)
Definition bulkInsertStudents (db : table) (request : Decoded (list StudentInput))
  : table * Response :=
  match request with
  | inl _ => (db, jsonError StatusBadRequest "Invalid JSON body for bulk insert")
  | inr students =>
      match query_max_id db with
      | inl _ => (db, http_Error "Failed to get max ID for bulk insert" 500)
      | inr currentMaxID =>
          let nextID := wrap64 (currentMaxID + 1) in
          let tx := BeginTx db in
          match bulk_loop tx nextID students with
          | inl err =>
              (Rollback tx,
               http_Error ("Transaction failed due to database error: " ++ Error err) 500)
          | inr tx' =>
              (Commit tx',
               mkResponse StatusCreated
                 (BulkJson "Bulk insert successful" (Itoa (Z.of_nat (List.length students)))))
          end
      end
  end.

(** The parameter of the search: the term between two [%]. *)
Definition search_pattern (q : string) : string := "%" ++ q ++ "%".

(** [... FROM students WHERE name LIKE ?] *)
Definition search_query (q : string) : list Cond :=
  let name := search_pattern q in
  [NameLike name].

(** [GET /students/search?q=]: the query is run and its rows are dropped; the
    handler ends where the source says "scan & return JSON", so the server
    answers 200 with nothing in the body. *)
Definition searchStudentsByName (db : table) (q : string) : Response :=
  match Query db (search_query q) with
  | inl err => http_Error (Error err) 500
  | inr _ => mkResponse StatusOK NoBody
  end.

Section Handlers.

(** [strconv.ParseFloat(s, 64)]: the value and the error. *)
Variable ParseFloat : string -> float64 * option NumError.

(** The engine's conversion of a text parameter compared with the BIGINT
    column [id]; [None] when the text is no number for it. *)
Variable cast_bigint : string -> option Z.

Definition nonempty (s : string) : bool := negb (String.eqb s "").

(** The WHERE clause [filterStudents] builds from its five parameters. *)
Definition filter_conds (ageMinStr ageMaxStr gpaMinStr gpaMaxStr orgsStr : string)
  : list Cond :=
  let ageMin := fst (Atoi ageMinStr) in
  let ageMax := fst (Atoi ageMaxStr) in
  let gpaMin := fst (ParseFloat gpaMinStr) in
  let gpaMax := fst (ParseFloat gpaMaxStr) in
  let query := [] in
  let query :=
    if nonempty ageMinStr && nonempty ageMaxStr
    then (query ++ [AgeBetween ageMin ageMax])%list else query in
  let query :=
    if nonempty gpaMinStr && nonempty gpaMaxStr
    then (query ++ [GpaBetween gpaMin gpaMax])%list else query in
  let query :=
    if nonempty orgsStr
    then (query ++ [OrgIn (Split orgsStr ",")])%list else query in
  query.

(** [GET /students/filter?ageMin=&ageMax=&gpaMin=&gpaMax=&organizations=] *)
Definition filterStudents (db : table)
  (ageMinStr ageMaxStr gpaMinStr gpaMaxStr orgsStr : string) : Response :=
  match Query db (filter_conds ageMinStr ageMaxStr gpaMinStr gpaMaxStr orgsStr) with
  | inl err => http_Error (Error err) StatusInternalServerError
  | inr students => mkResponse StatusOK (StudentsJson students)
  end.

(** [DELETE /students/{id}]: the id goes to the statement as the text of
    the path. *)
Definition deleteStudent (db : table) (id : string) : table * Response :=
  match cast_bigint id with
  | None => (db, http_Error (Error ConversionError) StatusInternalServerError)
  | Some n => (exec_delete db n, mkResponse StatusOK NoBody)
  end.

(** *** The service: requests served one after the other *)

Inductive Request : Type :=
| PostStudent (request : Decoded StudentInput)
| PostBulk (request : Decoded (list StudentInput))
| PutStudent (id : string) (request : Decoded StudentInput)
| DeleteStudent (id : string).

Definition serve (db : table) (req : Request) : table * Response :=
  match req with
  | PostStudent b => insertStudent db b
  | PostBulk b => bulkInsertStudents db b
  | PutStudent id b => updateStudent db id b
  | DeleteStudent id => deleteStudent db id
  end.

(** The table after the requests, starting from [db]. *)
Definition serve_all (db : table) (reqs : list Request) : table :=
  fold_left (fun t req => fst (serve t req)) reqs db.

End Handlers.

(* ===================================================================== *)
(** ** The read handlers *)

(** A Go slice value: [nil], or a sequence of elements.  [append] to the
    nil slice gives a slice of one element. *)
Inductive Slice (A : Type) : Type :=
| nil_slice
| slice (elems : list A).

Arguments nil_slice {A}.
Arguments slice {A} elems.

Definition append_slice {A : Type} (s : Slice A) (x : A) : Slice A :=
  match s with
  | nil_slice => slice [x]
  | slice l => slice (l ++ [x])%list
  end.

Definition elements {A : Type} (s : Slice A) : list A :=
  match s with
  | nil_slice => []
  | slice l => l
  end.

(** The loop [for rows.Next() { ...; xs = append(xs, x) }] over the rows of a
    result, from the nil slice. *)
Definition scan_rows {A : Type} (rows : list A) : Slice A :=
  fold_left append_slice rows nil_slice.

(** [GET /students]: every row, and the empty array (not null) when there
    is none. *)
Definition getStudents (db : table) : Response :=
  match Query db [] with
  | inl err => http_Error (Error err) StatusInternalServerError
  | inr rows =>
      let students := scan_rows rows in
      let students :=
        match students with
        | nil_slice => slice []
        | _ => students
        end in
      mkResponse StatusOK (StudentsJson (elements students))
  end.

(** [SELECT DISTINCT organization_name FROM students WHERE
    organization_name != '']: each non-empty organization once.  (The engine
    fixes no order for the result; here it is the order of the last rows that
    carry each name.) *)
Definition query_distinct_orgs (t : table) : Result (list string) :=
  inr (nodup string_dec (filter nonempty (map OrganizationName t))).

(** The body of the answer of [getOrganizations]: the text of [http.Error],
    or what [json] writes for a [[]string], which is [null] for the nil
    slice. *)
Inductive OrgsBody : Type :=
| OrgsText (msg : string)
| OrgsNull
| OrgsArray (orgs : list string).

Definition Encode_strings (s : Slice string) : OrgsBody :=
  match s with
  | nil_slice => OrgsNull
  | slice l => OrgsArray l
  end.

(** [GET /organizations]: the status and the body. *)
Definition getOrganizations (db : table) : Z * OrgsBody :=
  match query_distinct_orgs db with
  | inl err => (StatusInternalServerError, OrgsText (Error err))
  | inr rows =>
      let orgs := scan_rows rows in
      (StatusOK, Encode_strings orgs)
  end.

(* ===================================================================== *)
(** ** The router of [main]

    The nine routes in the order [main] registers them.  A route of
    gorilla/mux matches a request when its path template matches the path
    and, if it names methods, the method is one of them; the router serves
    the first route that matches, answers 405 when no route matches but some
    template matched the path, and 404 otherwise.  The variable [{id}] stands
    for one or more characters other than the slash.  Paths are the cleaned
    paths the router matches (it redirects the others first). *)

Inductive Handler : Type :=
| h_root
| h_searchStudentsByName
| h_filterStudents
| h_bulkInsertStudents
| h_getOrganizations
| h_getStudents
| h_insertStudent
| h_updateStudent
| h_deleteStudent.

Inductive Template : Type :=
| Exact (path : string)              (* a path without variables *)
| WithId (prefix : string).          (* prefix followed by {id} *)

Record Route : Type := mkRoute {
  template : Template;
  methods : list string;             (* [] when the route names none *)
  handler : Handler
}.

Definition routes : list Route :=
  [ mkRoute (Exact "/") [] h_root;
    mkRoute (Exact "/students/search") ["GET"] h_searchStudentsByName;
    mkRoute (Exact "/students/filter") ["GET"] h_filterStudents;
    mkRoute (Exact "/students/bulk") ["POST"] h_bulkInsertStudents;
    mkRoute (Exact "/organizations") ["GET"] h_getOrganizations;
    mkRoute (Exact "/students") ["GET"] h_getStudents;
    mkRoute (Exact "/students") ["POST"] h_insertStudent;
    mkRoute (WithId "/students/") ["PUT"] h_updateStudent;
    mkRoute (WithId "/students/") ["DELETE"] h_deleteStudent ].

(** What is left of [path] after [prefix], when it starts with it. *)
Fixpoint strip_prefix (prefix path : string) : option string :=
  match prefix with
  | EmptyString => Some path
  | String c prefix' =>
      match path with
      | EmptyString => None
      | String d path' => if Ascii.eqb c d then strip_prefix prefix' path' else None
      end
  end.

Fixpoint has_slash (s : string) : bool :=
  match s with
  | EmptyString => false
  | String c rest => Ascii.eqb c "/" || has_slash rest
  end.

(** The variables of the match ([mux.Vars]: the id, if the template has
    one), or [None] when the template does not match the path. *)
Definition match_path (t : Template) (path : string) : option (option string) :=
  match t with
  | Exact p => if String.eqb path p then Some None else None
  | WithId prefix =>
      match strip_prefix prefix path with
      | Some id => if nonempty id && negb (has_slash id) then Some (Some id) else None
      | None => None
      end
  end.

Definition match_method (r : Route) (method : string) : bool :=
  match methods r with
  | [] => true
  | ms => existsb (String.eqb method) ms
  end.

Inductive Outcome : Type :=
| Serve (h : Handler) (vars : option string)
| MethodNotAllowed
| NotFound.

(** [Router.Match] over the routes in order; [mismatch] records that a
    template matched the path of a route whose methods did not. *)
Fixpoint Router_Match (rs : list Route) (method path : string) (mismatch : bool) : Outcome :=
  match rs with
  | [] => if mismatch then MethodNotAllowed else NotFound
  | r :: rest =>
      match match_path (template r) path with
      | None => Router_Match rest method path mismatch
      | Some vars =>
          if match_method r method then Serve (handler r) vars
          else Router_Match rest method path true
      end
  end.

(** The route a request is served by. *)
Definition dispatch (method path : string) : Outcome :=
  Router_Match routes method path false.

(* ===================================================================== *)
(** ** The vocabulary of the specification *)

(** From here on [++] joins lists; texts are joined with [%string]. *)
Open Scope list_scope.

(** [m] is the greatest of the numbers [l]. *)
Definition is_max (m : Z) (l : list Z) : Prop :=
  In m l /\ forall i, In i l -> i <= m.

(** Age within [0, 120] and GPA within [0.0, 4.0]. *)
Definition in_range (s : StudentInput) : Prop :=
  0 <= in_Age s <= 120 /\ (0 <= in_GPA s)%Q /\ (in_GPA s <= 4)%Q.

(** The organization as stored: trimmed, and the sentinel when nothing is left. *)
Definition organization_or_default (org : string) : string :=
  if String.eqb (TrimSpace org) "" then NoOrganization else TrimSpace org.

(** The row a checked and normalized input makes. *)
Definition normalized (id : Z) (s : StudentInput) : Student :=
  mkStudent id (TrimSpace (in_Name s)) (in_Age s) (in_GPA s)
    (organization_or_default (in_Org s)).

(** The row the UPDATE statement of [updateStudent] leaves in place of [r]:
    the GPA is the one [%.2f] printed. *)
Definition updated (r : Student) (s : StudentInput) : Student :=
  mkStudent (ID r) (TrimSpace (in_Name s)) (in_Age s)
    (fmt.Sprintf_2f (in_GPA s) # 100) (organization_or_default (in_Org s)).

(** The row an input makes when its fields are stored as they came. *)
Definition verbatim (id : Z) (s : StudentInput) : Student :=
  mkStudent id (in_Name s) (in_Age s) (in_GPA s) (in_Org s).

(** The inputs as rows with the ids [first], [first + 1], .. in order, counted
    as [int64] counts. *)
Fixpoint numbered (first : Z) (l : list StudentInput) : list Student :=
  match l with
  | [] => []
  | s :: rest => verbatim first s :: numbered (wrap64 (first + 1)) rest
  end.

(** The id the handler's counter holds after [k] increments from [first]. *)
Fixpoint advance (first : Z) (k : nat) : Z :=
  match k with
  | O => first
  | S k' => advance (wrap64 (first + 1)) k'
  end.


(** The numbers [first], [first + 1], .., [first + n - 1]. *)
Fixpoint count_up (first : Z) (n : nat) : list Z :=
  match n with
  | O => []
  | S n' => first :: count_up (first + 1) n'
  end.

(** [q] occurs in [name]. *)
Definition contains (name q : string) : Prop :=
  exists before after, name = (before ++ q ++ after)%string.

(** No character of [q] is a wildcard of LIKE. *)
Fixpoint literal (q : string) : bool :=
  match q with
  | EmptyString => true
  | String c rest => negb (Ascii.eqb c "%") && negb (Ascii.eqb c "_") && literal rest
  end.

(** The character [c] occurs in [s]. *)
Fixpoint has_char (c : ascii) (s : string) : bool :=
  match s with
  | EmptyString => false
  | String d rest => Ascii.eqb d c || has_char c rest
  end.



(** The ids of a table are pairwise distinct. *)
Definition unique_ids (t : table) : Prop := NoDup (ids t).


(** What a route gives for a request it matches in path and method: its
    handler and the variables. *)
Definition full_match (r : Route) (method path : string) : option (Handler * option string) :=
  match match_path (template r) path with
  | Some vars => if match_method r method then Some (handler r, vars) else None
  | None => None
  end.

(** The template of the route matches the path. *)
Definition path_matches (path : string) (r : Route) : bool :=
  match match_path (template r) path with
  | Some _ => true
  | None => false
  end.

(** The white space of ASCII: tab, line feed, vertical tab, form feed,
    carriage return and space. *)
Definition ascii_space (c : ascii) : bool :=
  ((9 <=? code c) && (code c <=? 13)) || (code c =? 32).

(** The list starts with such a character. *)
Definition first_is_space (l : list ascii) : bool :=
  match l with
  | c :: _ => ascii_space c
  | [] => false
  end.

(** The text starts or ends with such a character. *)
Definition outer_space (s : string) : bool :=
  first_is_space (list_ascii_of_string s) || first_is_space (rev (list_ascii_of_string s)).

(** A row as insert and update store it: no white space around the name
    and the organization, and the organization not empty. *)
Definition tidy (r : Student) : Prop :=
  outer_space (Name r) = false /\
  outer_space (OrganizationName r) = false /\
  OrganizationName r <> ""%string.


(** *** Sample data for the examples *)

Definition eve : Student := mkStudent 5 "Eve" 30 (7 # 2) "Chess".
Definition ann : StudentInput := mkInput " Ann " 20 (55 # 16) "".
Definition bob : StudentInput := mkInput "Bob" 21 3 "Robotics".
Definition cy : StudentInput := mkInput "Cy" 22 (5 # 2) "Chess".

Definition names : table :=
  [mkStudent 1 "Anna" 20 3 "A"; mkStudent 2 "Joanna" 23 (7 # 2) "B";
   mkStudent 3 "annabelle" 26 4 "C"; mkStudent 4 "Bob" 30 2 "A,B"].

(** The float64 nearest to 4.01. *)
Definition gpa_4_01 : Q := 2257429313219461 # 562949953421312.

(** A stand-in for [strconv.ParseFloat] in the examples: it reads the
    texts made of digits and reports a syntax error, with 0, for the others
    (the real function reads more texts than these). *)
Definition ParseFloat_digits (s : string) : float64 * option NumError :=
  match ParseUint s with
  | (n, None) => (Finite (inject_Z n), None)
  | (_, Some _) => (Finite 0, Some ErrSyntax)
  end.

(** A stand-in for the engine's conversion of the id text in the
    examples: the texts [Atoi] reads without error. *)
Definition cast_by_Atoi (s : string) : option Z :=
  match Atoi s with
  | (n, None) => Some n
  | (_, Some _) => None
  end.

(* ===================================================================== *)
(** ** Lemmas on the model *)

Lemma Qltb_true_iff (a b : Q) : Qltb a b = true <-> (a < b)%Q.
Proof.
  unfold Qltb. rewrite negb_true_iff, <- not_true_iff_false, Qle_bool_iff.
  split; [apply Qnot_le_lt | apply Qlt_not_le].
Qed.

Lemma Qltb_false_iff (a b : Q) : Qltb a b = false <-> (b <= a)%Q.
Proof.
  unfold Qltb. rewrite negb_false_iff. apply Qle_bool_iff.
Qed.

Lemma range_checks_pass (s : StudentInput) :
  in_range s ->
  (in_Age s <? 0) || (in_Age s >? 120) = false /\
  Qltb (in_GPA s) 0 || Qltb 4 (in_GPA s) = false.
Proof.
  intros [Hage [Hlo Hhi]]. split.
  - apply orb_false_iff. rewrite Z.gtb_ltb. split; apply Z.ltb_ge; lia.
  - apply orb_false_iff. split; apply Qltb_false_iff; assumption.
Qed.

Lemma range_checks_fail (s : StudentInput) :
  ~ in_range s ->
  (in_Age s <? 0) || (in_Age s >? 120) = true \/
  Qltb (in_GPA s) 0 || Qltb 4 (in_GPA s) = true.
Proof.
  intros Hbad.
  destruct ((in_Age s <? 0) || (in_Age s >? 120)) eqn:Ea; [now left | right].
  destruct (Qltb (in_GPA s) 0 || Qltb 4 (in_GPA s)) eqn:Eg; [reflexivity | exfalso].
  apply Hbad. apply orb_false_iff in Ea, Eg.
  destruct Ea as [E1 E2], Eg as [E3 E4].
  apply Z.ltb_ge in E1. rewrite Z.gtb_ltb in E2. apply Z.ltb_ge in E2.
  apply Qltb_false_iff in E3, E4. repeat split; assumption.
Qed.

Lemma max_id_none (t : table) : max_id t = None -> t = [].
Proof.
  destruct t as [|r t]; [reflexivity | simpl].
  destruct (max_id t); discriminate.
Qed.

Lemma max_id_is_max (t : table) : forall m, max_id t = Some m -> is_max m (ids t).
Proof.
  induction t as [|r t IH]; simpl; intros m Hm; [discriminate |].
  destruct (max_id t) as [m'|] eqn:E.
  - injection Hm as <-. destruct (IH m' eq_refl) as [Hin Hle]. split.
    + destruct (Z.max_spec (ID r) m') as [[_ ->] | [_ ->]]; [right | left]; auto.
    + intros i [<- | Hi]; [lia | specialize (Hle i Hi); lia].
  - injection Hm as <-. apply max_id_none in E. subst t. split.
    + now left.
    + intros i [<- | []]. lia.
Qed.

Lemma ids_below_coalesced_max (t : table) (i : Z) :
  In i (ids t) -> i <= COALESCE (max_id t) 0.
Proof.
  intros Hi. destruct (max_id t) as [m|] eqn:E; simpl.
  - apply (max_id_is_max t m E); assumption.
  - apply max_id_none in E. subst t. destruct Hi.
Qed.

Lemma not_among (x : Z) (l : list Z) :
  (forall i, In i l -> i < x) -> existsb (Z.eqb x) l = false.
Proof.
  intros Hlt. apply not_true_iff_false. intros H.
  apply existsb_exists in H. destruct H as [i [Hi Heq]].
  apply Z.eqb_eq in Heq. subst i. specialize (Hlt x Hi). lia.
Qed.

Lemma ids_app (t u : table) : ids (t ++ u) = (ids t ++ ids u)%list.
Proof. apply map_app. Qed.

Lemma exec_insert_ok (t : table) (r : Student) :
  in_int32 (Age r) = true ->
  (forall i, In i (ids t) -> i < ID r) ->
  exec_insert t r = inr (t ++ [r])%list.
Proof.
  intros Hage Hfresh. unfold exec_insert.
  rewrite Hage, (not_among _ _ Hfresh). reflexivity.
Qed.

(** Whatever [exec_insert] accepts has an id the table did not hold. *)
Lemma exec_insert_inv (t t' : table) (r : Student) :
  exec_insert t r = inr t' ->
  t' = (t ++ [r])%list /\ ~ In (ID r) (ids t) /\ in_int32 (Age r) = true.
Proof.
  unfold exec_insert. intros H.
  destruct (in_int32 (Age r)); [simpl in H | discriminate].
  destruct (existsb (Z.eqb (ID r)) (ids t)) eqn:E; [discriminate |].
  injection H as <-. repeat split.
  intros Hin. apply not_true_iff_false in E. apply E.
  apply existsb_exists. exists (ID r). split; [assumption | apply Z.eqb_refl].
Qed.

(* ===================================================================== *)
(** ** Single insert *)

Lemma next_id_fits (db : table) :
  (forall i, In i (ids db) -> MinInt64 <= i < MaxInt64) ->
  in_int64 (COALESCE (max_id db) 0 + 1) = true.
Proof.
  intros Hroom. destruct (max_id db) as [m|] eqn:E; cbn [COALESCE]; [| reflexivity].
  destruct (max_id_is_max db m E) as [Hin _]. specialize (Hroom m Hin).
  unfold in_int64. apply andb_true_iff. split; apply Z.leb_le; unfold MinInt64, MaxInt64 in *; lia.
Qed.

Lemma next_id_is_max_plus_one (db : table) :
  (db = [] /\ COALESCE (max_id db) 0 + 1 = 1) \/
  (exists m, is_max m (ids db) /\ COALESCE (max_id db) 0 + 1 = 1 + m).
Proof.
  destruct (max_id db) as [m|] eqn:E; cbn [COALESCE].
  - right. exists m. split; [apply max_id_is_max; assumption | lia].
  - left. split; [apply max_id_none; assumption | reflexivity].
Qed.

Lemma age_in_range_fits (a : Z) : 0 <= a <= 120 -> in_int32 a = true.
Proof.
  intros H. unfold in_int32, MinInt32, MaxInt32.
  apply andb_true_iff. split; apply Z.leb_le; lia.
Qed.

(** C1.  A single insert whose age lies in [0, 120] and whose GPA lies in
    [0.0, 4.0] answers 201 with an id that is 1 on the empty table and one
    more than the greatest id of the table otherwise, and the row it appends
    to the table carries that id.  (The ids are BIGINTs below the largest
    one, so that the next id exists.) *)
Theorem insert_returns_next_id (db : table) (s : StudentInput) :
  in_range s ->
  (forall i, In i (ids db) -> MinInt64 <= i < MaxInt64) ->
  exists newID,
    insertStudent db (inr s) =
      (db ++ [normalized newID s],
       mkResponse 201 (CreatedJson newID "Student created successfully")) /\
    ((db = [] /\ newID = 1) \/ (exists m, is_max m (ids db) /\ newID = 1 + m)).
Proof.
  intros Hrange Hroom.
  destruct (range_checks_pass s Hrange) as [Hage Hgpa].
  exists (COALESCE (max_id db) 0 + 1). split; [| apply next_id_is_max_plus_one].
  unfold insertStudent. rewrite Hage, Hgpa.
  unfold query_next_id. rewrite (next_id_fits db Hroom).
  rewrite exec_insert_ok.
  - reflexivity.
  - apply age_in_range_fits, Hrange.
  - simpl. intros i Hi. apply ids_below_coalesced_max in Hi. lia.
Qed.

(** C8.  A single insert answers 400 exactly when the age is below 0 or
    above 120 or the GPA is below 0.0 or above 4.0, and then the table is what
    it was; the bounds themselves are accepted. *)
Theorem insert_rejects_exactly_out_of_range (db : table) (s : StudentInput) :
  (StatusCode (snd (insertStudent db (inr s))) = 400 <->
     in_Age s < 0 \/ in_Age s > 120 \/ (in_GPA s < 0)%Q \/ (4 < in_GPA s)%Q) /\
  (StatusCode (snd (insertStudent db (inr s))) = 400 ->
     fst (insertStudent db (inr s)) = db).
Proof.
  unfold insertStudent.
  destruct (in_Age s <? 0) eqn:E1; simpl.
  { apply Z.ltb_lt in E1. repeat split; auto. }
  destruct (in_Age s >? 120) eqn:E2; simpl.
  { rewrite Z.gtb_ltb in E2. apply Z.ltb_lt in E2. repeat split; auto. right; left; lia. }
  destruct (Qltb (in_GPA s) 0) eqn:E3; simpl.
  { apply Qltb_true_iff in E3. repeat split; auto. }
  destruct (Qltb 4 (in_GPA s)) eqn:E4; simpl.
  { apply Qltb_true_iff in E4. repeat split; auto. }
  apply Z.ltb_ge in E1. rewrite Z.gtb_ltb in E2. apply Z.ltb_ge in E2.
  apply Qltb_false_iff in E3, E4.
  assert (Hok : ~ (in_Age s < 0 \/ in_Age s > 120 \/ (in_GPA s < 0)%Q \/ (4 < in_GPA s)%Q)).
  { intros [H | [H | [H | H]]]; try lia.
    - apply (Qlt_not_le _ _ H E3).
    - apply (Qlt_not_le _ _ H E4). }
  destruct (query_next_id db) as [e | newID]; simpl.
  { split; [split; [discriminate | tauto] | reflexivity]. }
  match goal with |- context [exec_insert ?t ?r] => destruct (exec_insert t r) as [e | db'] end;
    simpl; (split; [split; [discriminate | tauto] | discriminate]).
Qed.

(* ===================================================================== *)
(** ** Bulk insert *)

Lemma wrap64_in_range (n : Z) : MinInt64 <= n <= MaxInt64 -> wrap64 n = n.
Proof.
  intros H. unfold wrap64, MinInt64, MaxInt64 in *.
  rewrite Z.mod_small; lia.
Qed.


Lemma numbered_length (l : list StudentInput) :
  forall first, List.length (numbered first l) = List.length l.
Proof.
  induction l as [|s rest IH]; intros first; simpl; [reflexivity | now rewrite IH].
Qed.

(** Without wrap-around the ids of the numbered rows count up by one. *)
Lemma numbered_ids (l : list StudentInput) :
  forall first,
    MinInt64 <= first ->
    first + Z.of_nat (List.length l) <= MaxInt64 + 1 ->
    ids (numbered first l) = count_up first (List.length l).
Proof.
  induction l as [|s rest IH]; intros first Hlo Hhi; [reflexivity |].
  cbn [numbered ids map List.length count_up ID verbatim]. f_equal.
  destruct rest as [|s' rest']; [reflexivity |].
  cbn [List.length] in Hhi.
  rewrite wrap64_in_range by lia.
  apply IH; cbn [List.length]; lia.
Qed.

(** The loop either stops at the first student whose INSERT the engine
    refuses, or leaves every student in the pending table. *)
Lemma bulk_loop_cases (students : list StudentInput) :
  forall (snap t : table) (first : Z),
    (exists before s after e,
        students = before ++ s :: after /\
        exec_insert (t ++ numbered first before)
          (verbatim (advance first (List.length before)) s) = inl e /\
        bulk_loop (mkTx snap t) first students = inl e)
    \/ bulk_loop (mkTx snap t) first students = inr (mkTx snap (t ++ numbered first students)).
Proof.
  induction students as [|s rest IH]; intros snap t first.
  - right. cbn [bulk_loop numbered]. now rewrite app_nil_r.
  - cbn [bulk_loop]. unfold Tx_Exec. cbn [pending snapshot].
    fold (verbatim first s).
    destruct (exec_insert t (verbatim first s)) as [e | t'] eqn:E.
    + left. exists [], s, rest, e. cbn [numbered List.length advance app].
      rewrite app_nil_r. auto.
    + apply exec_insert_inv in E. destruct E as [-> _].
      destruct (IH snap (t ++ [verbatim first s]) (wrap64 (first + 1)))
        as [(before & s' & after & e & Hsplit & Hfail & Hloop) | Hok].
      * left. exists (s :: before), s', after, e.
        cbn [numbered List.length advance]. rewrite <- app_assoc in Hfail.
        subst rest. auto.
      * right. rewrite Hok. cbn [numbered]. now rewrite <- app_assoc.
Qed.




(** The specification's example for C3: the second of three students has
    an age no INTEGER holds; nothing of the request stays in the table. *)
Example bulk_insert_second_row_fails :
  let db := [mkStudent 5 "Eve" 30 (7 # 2) "Chess"] in
  bulkInsertStudents db
    (inr [mkInput "Ann" 20 3 "A"; mkInput "Bob" 3000000000 3 "B"; mkInput "Cy" 22 3 "C"]) =
  (db, http_Error "Transaction failed due to database error: Conversion Error" 500).
Proof. reflexivity. Qed.


(* ===================================================================== *)
(** ** Update *)

(** Doubling the quotes and reading the literal back gives the text. *)
Lemma sql_unquote_ReplaceAll (s : string) :
  sql_unquote (ReplaceAll s "'" "''") = Some s.
Proof.
  induction s as [|c rest IH]; [reflexivity |].
  cbn [ReplaceAll]. destruct (Ascii.eqb c "'") eqn:E.
  - apply Ascii.eqb_eq in E. subst c.
    cbn [append sql_unquote]. rewrite Ascii.eqb_refl, IH. reflexivity.
  - cbn [sql_unquote]. rewrite E, IH. reflexivity.
Qed.

Lemma count_absent (db : table) (id : Z) :
  ~ In id (ids db) -> query_count_id db id = inr 0.
Proof.
  intros Habsent. unfold query_count_id.
  replace (filter (fun r => ID r =? id) db) with (@nil Student); [reflexivity |].
  symmetry. induction db as [|r db IH]; [reflexivity |].
  cbn [filter]. destruct (ID r =? id) eqn:E.
  - exfalso. apply Habsent. left. now apply Z.eqb_eq.
  - apply IH. intros Hin. apply Habsent. now right.
Qed.




(** C9 as stated fails: with an age out of range the update of an id the
    table does not hold is answered 400, not 404. *)
Lemma update_absent_id_with_bad_age_is_400 :
  ~ In 7 (ids []) /\
  updateStudent [] "7" (inr (mkInput "Ann" (-1) 3 "Chess")) =
    ([], jsonError 400 "Age out of range") /\
  StatusCode (snd (updateStudent [] "7" (inr (mkInput "Ann" (-1) 3 "Chess")))) <>
    StatusNotFound.
Proof.
  split; [intros [] |]. split; [reflexivity | discriminate].
Qed.

(** C9, amended.  An update of an id the table does not hold leaves the
    table as it was, whatever the body; with a body whose age lies in
    [0, 120] and whose GPA lies in [0.0, 4.0] the answer is 404. *)
Theorem update_absent_id (db : table) (idStr : string) (id : Z)
    (request : Decoded StudentInput) :
  Atoi idStr = (id, None) ->
  ~ In id (ids db) ->
  fst (updateStudent db idStr request) = db /\
  (forall s, request = inr s -> in_range s ->
     snd (updateStudent db idStr request) = jsonError 404 "Student not found").
Proof.
  intros Hid Habsent. unfold updateStudent. rewrite Hid.
  destruct request as [err | s]; [split; [reflexivity | discriminate] |].
  rewrite (count_absent db id Habsent). cbn [Z.eqb].
  split.
  - destruct ((in_Age s <? 0) || (in_Age s >? 120)); [reflexivity |].
    destruct (Qltb (in_GPA s) 0 || Qltb 4 (in_GPA s)); reflexivity.
  - intros s' Hs Hrange. injection Hs as <-.
    destruct (range_checks_pass s Hrange) as [-> ->]. reflexivity.
Qed.

(* ===================================================================== *)
(** ** Search *)

(** A pattern that starts with [%] matches when the rest of it matches
    what is left after dropping some first characters. *)
Lemma like_percent (p s : string) :
  like (String "%" p) s = true <->
  exists before after, s = (before ++ after)%string /\ like p after = true.
Proof.
  cbn [like]. rewrite Ascii.eqb_refl.
  induction s as [|c s IH].
  - split.
    + intros H. exists ""%string, ""%string. split; [reflexivity |].
      now rewrite orb_false_r in H.
    + intros (before & after & Hs & Hm).
      destruct before; [| discriminate]. cbn [append] in Hs. subst after.
      now rewrite Hm.
  - split.
    + intros H. apply orb_true_iff in H. destruct H as [H | H].
      * exists ""%string, (String c s). auto.
      * apply IH in H. destruct H as (before & after & -> & Hm).
        exists (String c before), after. auto.
    + intros (before & after & Hs & Hm). apply orb_true_iff.
      destruct before as [|b before]; cbn [append] in Hs.
      * left. now subst after.
      * right. injection Hs as <- ->. apply IH. eauto.
Qed.

Lemma like_only_percent (s : string) : like "%" s = true.
Proof.
  apply like_percent. exists s, ""%string. split; [| reflexivity].
  induction s as [|c s IH]; [reflexivity | cbn [append]; now rewrite <- IH].
Qed.

(** A text without wildcards followed by [%] matches what starts with it. *)
Lemma like_literal_prefix (q : string) :
  literal q = true ->
  forall s, like (q ++ "%") s = true <-> exists after, s = (q ++ after)%string.
Proof.
  induction q as [|c q IH]; intros Hlit s.
  - cbn [append]. split; [intros _; now exists s | intros _; apply like_only_percent].
  - cbn [literal] in Hlit. apply andb_true_iff in Hlit. destruct Hlit as [Hc Hq].
    apply andb_true_iff in Hc. destruct Hc as [Hc1 Hc2].
    apply negb_true_iff in Hc1, Hc2.
    cbn [append like]. rewrite Hc1, Hc2.
    destruct s as [|d s].
    + split; [discriminate | intros [after H]; discriminate].
    + rewrite andb_true_iff, Ascii.eqb_eq, (IH Hq s). split.
      * intros [-> [after ->]]. now exists after.
      * intros [after H]. injection H as -> ->. eauto.
Qed.

(** The pattern of the search selects the names the term occurs in, when
    the term has no wildcard. *)
Lemma like_search_pattern (q name : string) :
  literal q = true ->
  like (search_pattern q) name = true <-> contains name q.
Proof.
  intros Hlit. unfold search_pattern, contains. cbn [append].
  rewrite like_percent. split.
  - intros (before & rest & -> & Hm).
    apply (like_literal_prefix q Hlit) in Hm. destruct Hm as [after ->].
    now exists before, after.
  - intros (before & after & ->). exists before, (q ++ after)%string.
    split; [reflexivity |]. apply (like_literal_prefix q Hlit). now exists after.
Qed.

(** C6 as stated fails: the answer to a search has no body, so it is not
    the array of the students whose name holds the term; and the search for
    [ann], which tells upper case from lower, does not select "Anna". *)
Lemma search_answer_lists_no_student :
  let joanna := mkStudent 1 "Joanna" 20 3 "Chess" in
  let anna := mkStudent 2 "Anna" 21 3 "Chess" in
  contains (Name joanna) "ann" /\
  searchStudentsByName [joanna] "ann" = mkResponse 200 NoBody /\
  body (searchStudentsByName [joanna] "ann") <> StudentsJson [joanna] /\
  Query [anna] (search_query "ann") = inr [].
Proof.
  cbv zeta. split; [exists "Jo"%string, "a"%string; reflexivity |].
  split; [reflexivity |]. split; [discriminate | reflexivity].
Qed.

(** C6, amended.  For a term without the wildcards [%] and [_], the query
    of the search handler selects exactly the students whose name holds the
    term, upper and lower case told apart; the handler answers 200.  So the
    term [ann] selects "Joanna" and "annabelle" and neither "Anna" nor
    "Bob". *)
Theorem search_query_selects_names_containing_term (db : table) (q : string) :
  literal q = true ->
  StatusCode (searchStudentsByName db q) = 200 /\
  exists rows,
    Query db (search_query q) = inr rows /\
    forall r, In r rows <-> In r db /\ contains (Name r) q.
Proof.
  intros Hlit. split; [reflexivity |].
  unfold Query, search_query. eexists. split; [reflexivity |].
  intros r. rewrite filter_In. cbn [forallb holds]. rewrite andb_true_r.
  now rewrite (like_search_pattern q (Name r) Hlit).
Qed.

(* ===================================================================== *)
(** ** Filter *)



Lemma Split_pieces_have_no_separator (s : string) (sep : ascii) :
  Forall (fun piece => has_char sep piece = false) (Split s sep).
Proof.
  induction s as [|c s IH]; cbn [Split].
  - constructor; [reflexivity | constructor].
  - destruct (Ascii.eqb c sep) eqn:E.
    + constructor; [reflexivity | assumption].
    + destruct (Split s sep) as [|p ps].
      * constructor; [| constructor]. cbn [has_char]. now rewrite E.
      * inversion IH as [|? ? Hp Hps]; subst.
        constructor; [| assumption]. cbn [has_char]. now rewrite E, Hp.
Qed.





Lemma nonempty_true (s : string) : nonempty s = true <-> s <> ""%string.
Proof.
  unfold nonempty. rewrite negb_true_iff. split.
  - intros H ->. discriminate.
  - intros H. destruct s; [contradiction | reflexivity].
Qed.

Lemma both_nonempty (a b : string) :
  (nonempty a && nonempty b)%bool = true <-> a <> ""%string /\ b <> ""%string.
Proof. now rewrite andb_true_iff, !nonempty_true. Qed.

Lemma existsb_eqb_In (x : string) (l : list string) :
  existsb (String.eqb x) l = true <-> In x l.
Proof.
  rewrite existsb_exists. split.
  - intros [y [Hy Heq]]. apply String.eqb_eq in Heq. now subst y.
  - intros H. exists x. split; [assumption | apply String.eqb_refl].
Qed.

Section Filter.

Variable ParseFloat : string -> float64 * option NumError.

(** A row meets the WHERE clause of [filterStudents] exactly when it meets
    each criterion whose parameters are there. *)
Lemma filter_conds_hold (ageMinStr ageMaxStr gpaMinStr gpaMaxStr orgsStr : string)
    (r : Student) :
  forallb (fun c => holds c r)
    (filter_conds ParseFloat ageMinStr ageMaxStr gpaMinStr gpaMaxStr orgsStr) = true <->
  (ageMinStr <> ""%string /\ ageMaxStr <> ""%string ->
     fst (Atoi ageMinStr) <= Age r <= fst (Atoi ageMaxStr)) /\
  (gpaMinStr <> ""%string /\ gpaMaxStr <> ""%string ->
     sql_float_le (fst (ParseFloat gpaMinStr)) (Finite (GPA r)) = true /\
     sql_float_le (Finite (GPA r)) (fst (ParseFloat gpaMaxStr)) = true) /\
  (orgsStr <> ""%string -> In (OrganizationName r) (Split orgsStr ",")).
Proof.
  unfold filter_conds. cbv zeta.
  pose proof (both_nonempty ageMinStr ageMaxStr) as Hage.
  pose proof (both_nonempty gpaMinStr gpaMaxStr) as Hgpa.
  pose proof (nonempty_true orgsStr) as Horg.
  destruct (nonempty ageMinStr && nonempty ageMaxStr)%bool;
    destruct (nonempty gpaMinStr && nonempty gpaMaxStr)%bool;
    destruct (nonempty orgsStr);
    cbn [app forallb holds];
    rewrite ?andb_true_iff, ?Z.leb_le, ?existsb_eqb_In;
    intuition (try discriminate; auto).
Qed.


End Filter.

(* ===================================================================== *)
(** ** Uniqueness of the ids *)

Lemma NoDup_snoc (l : list Z) (x : Z) : NoDup l -> ~ In x l -> NoDup (l ++ [x]).
Proof.
  intros Hl Hx. apply NoDup_app; [assumption | repeat constructor; intros [] |].
  intros y Hy [<- | []]. contradiction.
Qed.

Lemma exec_insert_unique (t t' : table) (r : Student) :
  exec_insert t r = inr t' -> unique_ids t -> unique_ids t'.
Proof.
  intros H Hu. apply exec_insert_inv in H. destruct H as (-> & Hfresh & _).
  unfold unique_ids. rewrite ids_app. now apply NoDup_snoc.
Qed.

Lemma exec_update_ids (t t' : table) (q : UpdateText) :
  exec_update t q = inr t' -> ids t' = ids t.
Proof.
  unfold exec_update.
  destruct (sql_unquote (name_literal q)) as [name|]; [| discriminate].
  destruct (sql_unquote (org_literal q)) as [org|]; [| discriminate].
  destruct (negb (in_int32 (age_literal q))); [discriminate |].
  intros H. injection H as <-. unfold ids. rewrite map_map.
  apply map_ext. intros r. now destruct (ID r =? id_literal q).
Qed.

Lemma filter_unique (keep : Student -> bool) (t : table) :
  unique_ids t -> unique_ids (filter keep t).
Proof.
  unfold unique_ids. induction t as [|r t IH]; cbn [filter ids map]; intros H; [constructor |].
  inversion H as [|? ? Hr Ht]; subst.
  destruct (keep r); [| now apply IH].
  cbn [map]. constructor; [| now apply IH].
  intros Hin. apply Hr. apply in_map_iff in Hin. destruct Hin as [r' [Hid Hin]].
  apply filter_In in Hin. apply in_map_iff. exists r'. tauto.
Qed.

Lemma bulk_loop_unique (students : list StudentInput) :
  forall (tx tx' : Tx) (first : Z),
    bulk_loop tx first students = inr tx' ->
    unique_ids (pending tx) -> unique_ids (pending tx').
Proof.
  induction students as [|s rest IH]; intros tx tx' first; cbn [bulk_loop].
  - intros H. now injection H as <-.
  - unfold Tx_Exec.
    destruct (exec_insert (pending tx) _) as [e | t] eqn:E; [discriminate |].
    intros Hloop Hu. apply (IH _ _ _ Hloop). cbn [pending].
    now apply (exec_insert_unique _ _ _ E).
Qed.

Lemma count_up_lower (n : nat) : forall first j, In j (count_up first n) -> first <= j.
Proof.
  induction n as [|n IH]; intros first j; cbn [count_up]; [intros [] |].
  intros [<- | Hj]; [lia | apply IH in Hj; lia].
Qed.

(** Insert: the table stays, or it gets one row whose id is above every id
    it held. *)
Lemma insert_adds_greater_id (db : table) (request : Decoded StudentInput) :
  fst (insertStudent db request) = db \/
  exists r, fst (insertStudent db request) = db ++ [r] /\
            forall i, In i (ids db) -> i < ID r.
Proof.
  unfold insertStudent. destruct request as [err | s]; [now left |].
  destruct ((in_Age s <? 0) || (in_Age s >? 120))%bool; [now left |].
  destruct (Qltb (in_GPA s) 0 || Qltb 4 (in_GPA s))%bool; [now left |].
  unfold query_next_id. destruct (in_int64 _); [| now left].
  match goal with |- context [exec_insert ?t ?r] =>
    destruct (exec_insert t r) as [e | db'] eqn:E; [now left | right; exists r] end.
  apply exec_insert_inv in E. destruct E as [-> _]. split; [reflexivity |].
  cbn [ID]. intros i Hi. apply ids_below_coalesced_max in Hi. lia.
Qed.

(** Bulk insert: the table stays, or it gets the students' rows; without
    wrap-around of the id counter their ids are above every id it held. *)
Lemma bulk_insert_adds_greater_ids (db : table) (request : Decoded (list StudentInput)) :
  exists rows,
    fst (bulkInsertStudents db request) = db ++ rows /\
    ((forall i, In i (ids db) -> MinInt64 <= i) ->
     COALESCE (max_id db) 0 + Z.of_nat (List.length rows) <= MaxInt64 ->
     forall i j, In i (ids db) -> In j (ids rows) -> i < j).
Proof.
  unfold bulkInsertStudents, query_max_id, BeginTx.
  destruct request as [err | students].
  { exists []. rewrite app_nil_r. split; [reflexivity | intros _ _ i j _ []]. }
  set (start := COALESCE (max_id db) 0).
  destruct (bulk_loop_cases students db db (wrap64 (start + 1)))
    as [(before & s & after & e & _ & _ & ->) | ->].
  { exists []. rewrite app_nil_r. split; [reflexivity | intros _ _ i j _ []]. }
  exists (numbered (wrap64 (start + 1)) students). split; [reflexivity |].
  rewrite numbered_length. intros Hbigint Hroom i j Hi Hj.
  destruct students as [|s rest]; [destruct Hj |].
  cbn [List.length] in Hroom.
  pose proof (ids_below_coalesced_max db i Hi) as Hle. fold start in Hle.
  specialize (Hbigint i Hi).
  rewrite wrap64_in_range in Hj by lia.
  rewrite numbered_ids in Hj by (cbn [List.length]; lia).
  apply count_up_lower in Hj. lia.
Qed.

(** Update never changes an id. *)
Lemma update_keeps_ids (db : table) (idStr : string) (request : Decoded StudentInput) :
  ids (fst (updateStudent db idStr request)) = ids db.
Proof.
  unfold updateStudent. destruct (Atoi idStr) as [id [err|]]; [reflexivity |].
  destruct request as [err | s]; [reflexivity |].
  destruct ((in_Age s <? 0) || (in_Age s >? 120))%bool; [reflexivity |].
  destruct (Qltb (in_GPA s) 0 || Qltb 4 (in_GPA s))%bool; [reflexivity |].
  unfold query_count_id. destruct (_ =? 0); [reflexivity |].
  unfold Tx_Exec, BeginTx. cbn [pending snapshot].
  match goal with |- context [exec_update ?t ?q] =>
    destruct (exec_update t q) as [e | t'] eqn:E end; [reflexivity |].
  cbn [Commit pending fst]. now apply exec_update_ids in E.
Qed.

Section Service.

Variable cast_bigint : string -> option Z.

(** Delete only removes rows. *)
Lemma delete_only_removes (db : table) (id : string) :
  exists keep, fst (deleteStudent cast_bigint db id) = filter keep db.
Proof.
  unfold deleteStudent. destruct (cast_bigint id) as [n|].
  - now exists (fun r => negb (ID r =? n)).
  - exists (fun _ => true). cbn [fst]. symmetry. apply forallb_filter_id.
    now apply forallb_forall.
Qed.

Lemma serve_keeps_ids_unique (db : table) (req : Request) :
  unique_ids db -> unique_ids (fst (serve cast_bigint db req)).
Proof.
  intros Hu. destruct req as [b | b | id b | id]; cbn [serve].
  - destruct (insert_adds_greater_id db b) as [-> | [r [-> Hgt]]]; [assumption |].
    unfold unique_ids. rewrite ids_app. apply NoDup_snoc; [assumption |].
    intros Hin. specialize (Hgt _ Hin). lia.
  - unfold bulkInsertStudents, query_max_id. destruct b as [err | students]; [assumption |].
    destruct (bulk_loop (BeginTx db) _ students) as [e | tx'] eqn:E; [assumption |].
    cbn [Commit fst]. now apply (bulk_loop_unique _ _ _ _ E).
  - unfold unique_ids. now rewrite update_keeps_ids.
  - destruct (delete_only_removes db id) as [keep ->]. now apply filter_unique.
Qed.

Lemma serve_all_keeps_ids_unique (reqs : list Request) :
  forall db, unique_ids db -> unique_ids (serve_all cast_bigint db reqs).
Proof.
  induction reqs as [|req reqs IH]; intros db Hu; [assumption |].
  cbn [serve_all fold_left]. apply IH. now apply serve_keeps_ids_unique.
Qed.

(** C10.  From the empty table, after any requests served one after the
    other (insert, bulk insert, update, delete), the ids of the rows are
    pairwise distinct, because every request keeps them so: an insert adds
    at most one row, with an id above every id present; a bulk insert adds
    rows whose ids are above every id present (as long as the id counter
    does not pass the largest BIGINT); an update changes no id; a delete
    only removes rows. *)
Theorem ids_stay_unique :
  (forall reqs, unique_ids (serve_all cast_bigint initDB reqs)) /\
  (forall db req, unique_ids db -> unique_ids (fst (serve cast_bigint db req))) /\
  (forall db request,
      fst (insertStudent db request) = db \/
      exists r, fst (insertStudent db request) = db ++ [r] /\
                forall i, In i (ids db) -> i < ID r) /\
  (forall db request,
      exists rows,
        fst (bulkInsertStudents db request) = db ++ rows /\
        ((forall i, In i (ids db) -> MinInt64 <= i) ->
         COALESCE (max_id db) 0 + Z.of_nat (List.length rows) <= MaxInt64 ->
         forall i j, In i (ids db) -> In j (ids rows) -> i < j)) /\
  (forall db idStr request, ids (fst (updateStudent db idStr request)) = ids db) /\
  (forall db id, exists keep, fst (deleteStudent cast_bigint db id) = filter keep db).
Proof.
  repeat split.
  - intros reqs. apply serve_all_keeps_ids_unique. constructor.
  - apply serve_keeps_ids_unique.
  - apply insert_adds_greater_id.
  - apply bulk_insert_adds_greater_ids.
  - apply update_keeps_ids.
  - apply delete_only_removes.
Qed.

End Service.

(* ===================================================================== *)
(** ** The statements at sample inputs *)

Lemma ann_in_range : in_range ann.
Proof. unfold in_range, ann; cbn. repeat split; try lia; discriminate. Defined.

(** C1 at a sample input: one row with the id 5, and a student in range. *)
Lemma insert_returns_next_id_witness :
  in_range ann /\
  (forall i, In i (ids [eve]) -> MinInt64 <= i < MaxInt64) /\
  exists newID,
    insertStudent [eve] (inr ann) =
      ([eve] ++ [normalized newID ann],
       mkResponse 201 (CreatedJson newID "Student created successfully")) /\
    (([eve] = [] /\ newID = 1) \/ (exists m, is_max m (ids [eve]) /\ newID = 1 + m)).
Proof.
  assert (Hroom : forall i, In i (ids [eve]) -> MinInt64 <= i < MaxInt64).
  { intros i [<- | []]. unfold MinInt64, MaxInt64. cbn. lia. }
  split; [exact ann_in_range |]. split; [exact Hroom |].
  exact (insert_returns_next_id [eve] ann ann_in_range Hroom).
Defined.

(** The first insert into the empty table gets the id 1, the next one
    1 + 5 when the greatest id is 5. *)
Example insert_ids :
  insertStudent [] (inr ann) =
    ([mkStudent 1 "Ann" 20 (55 # 16) "No Organization"],
     mkResponse 201 (CreatedJson 1 "Student created successfully")) /\
  insertStudent [eve] (inr bob) =
    ([eve; mkStudent 6 "Bob" 21 3 "Robotics"],
     mkResponse 201 (CreatedJson 6 "Student created successfully")).
Proof. split; reflexivity. Qed.

(** The bounds of C8: ages 0 and 120 and GPAs 0.0 and 4.0 are stored; ages
    -1 and 121 and the GPA 4.01 are answered 400 and leave the table. *)
Example insert_bounds :
  map (fun s => StatusCode (snd (insertStudent [eve] (inr s))))
    [mkInput "a" 0 0 "x"; mkInput "a" 120 4 "x"] = [201; 201] /\
  map (fun s => insertStudent [eve] (inr s))
    [mkInput "a" (-1) 3 "x"; mkInput "a" 121 3 "x"; mkInput "a" 20 gpa_4_01 "x"] =
    [([eve], http_Error "Invalid age" 400);
     ([eve], http_Error "Invalid age" 400);
     ([eve], http_Error "Invalid GPA" 400)].
Proof. split; reflexivity. Qed.


(** The specification's example for C2: three students, the greatest id
    being 5, get the ids 6, 7 and 8 in the order of the request. *)
Example bulk_insert_after_id_5 :
  bulkInsertStudents [eve] (inr [ann; bob; cy]) =
    ([eve; verbatim 6 ann; verbatim 7 bob; verbatim 8 cy],
     mkResponse 201 (BulkJson "Bulk insert successful" "3")).
Proof. reflexivity. Qed.

(** C9, amended, at a sample input: the table holds the id 5, not 7. *)
Lemma update_absent_id_witness :
  Atoi "7" = (7, None) /\
  ~ In 7 (ids [eve]) /\
  fst (updateStudent [eve] "7" (inr ann)) = [eve] /\
  (forall s, @inr string StudentInput ann = inr s -> in_range s ->
     snd (updateStudent [eve] "7" (inr ann)) = jsonError 404 "Student not found").
Proof.
  assert (Hid : Atoi "7" = (7, None)) by reflexivity.
  assert (Habsent : ~ In 7 (ids [eve])).
  { intros [H | []]. discriminate H. }
  split; [exact Hid |]. split; [exact Habsent |].
  exact (update_absent_id [eve] "7" 7 (inr ann) Hid Habsent).
Defined.

(** C6, amended, at a sample input: the term [ann] over four names. *)
Lemma search_query_selects_names_containing_term_witness :
  literal "ann" = true /\
  StatusCode (searchStudentsByName names "ann") = 200 /\
  exists rows,
    Query names (search_query "ann") = inr rows /\
    forall r, In r rows <-> In r names /\ contains (Name r) "ann".
Proof.
  split; [reflexivity |].
  exact (search_query_selects_names_containing_term names "ann" eq_refl).
Defined.

(** The term [ann] selects "Joanna" and "annabelle", not "Anna" or "Bob". *)
Example search_ann :
  Query names (search_query "ann") =
    inr [mkStudent 2 "Joanna" 23 (7 # 2) "B"; mkStudent 3 "annabelle" 26 4 "C"].
Proof. reflexivity. Qed.

(** A wildcard in the term is read as a wildcard: [o_n] selects "Joanna". *)
Example search_with_wildcard :
  Query names (search_query "o_n") = inr [mkStudent 2 "Joanna" 23 (7 # 2) "B"] /\
  ~ contains "Joanna" "o_n".
Proof.
  split; [reflexivity |].
  intros (before & after & H).
  repeat (destruct before as [|? before]; cbn in H; try discriminate;
          injection H as <- H).
Qed.



(** The specification's examples for C7.  An age range alone selects by
    age only; the organizations are matched whole (the row of organization
    "A,B" is not selected by [A,B]) and untrimmed (the piece " B" is not "B");
    one bound alone is no criterion; a bound that is no number counts as 0. *)
Example filter_samples :
  filterStudents ParseFloat_digits names "20" "25" "" "" "" =
    mkResponse 200 (StudentsJson
      [mkStudent 1 "Anna" 20 3 "A"; mkStudent 2 "Joanna" 23 (7 # 2) "B"]) /\
  filterStudents ParseFloat_digits names "" "" "" "" "A,B" =
    mkResponse 200 (StudentsJson
      [mkStudent 1 "Anna" 20 3 "A"; mkStudent 2 "Joanna" 23 (7 # 2) "B"]) /\
  filterStudents ParseFloat_digits names "" "" "" "" "A, B" =
    mkResponse 200 (StudentsJson [mkStudent 1 "Anna" 20 3 "A"]) /\
  filterStudents ParseFloat_digits names "25" "" "4" "" "" =
    mkResponse 200 (StudentsJson names) /\
  filterStudents ParseFloat_digits names "young" "25" "" "" "" =
    filterStudents ParseFloat_digits names "0" "25" "" "" "" /\
  filterStudents ParseFloat_digits names "" "" "3" "x" "" =
    mkResponse 200 (StudentsJson []).
Proof. repeat split; reflexivity. Qed.

(** The library functions at sample inputs: white space is trimmed at both
    ends only (a tab, a line feed and the no-break space U+00A0 among it);
    [Atoi] reads a sign, stops at what is no digit, and replaces a number out
    of range by the nearest [int64]; [%.2f] rounds to hundredths, a tie to the
    even one. *)
Example library_samples :
  TrimSpace (String "009" "  Ann Lee " ++ String "010" (String "194" (String "160" "")))
    = "Ann Lee"%string /\
  TrimSpace "   " = ""%string /\
  map Atoi ["25"; "-7"; "+3"; ""; "2x"; "1.5"; "9223372036854775808"] =
    [(25, None); (-7, None); (3, None); (0, Some ErrSyntax); (0, Some ErrSyntax);
     (0, Some ErrSyntax); (MaxInt64, Some ErrRange)] /\
  map fmt.Sprintf_2f [4; 55 # 16; 25 # 8; 27 # 8; 1 # 512]%Q = [400; 344; 312; 338; 0] /\
  Split "A,,B " "," = ["A"; ""; "B "]%string.
Proof. repeat split; reflexivity. Qed.

(* ===================================================================== *)
(** ** More on update and delete *)

Lemma in_range_dec (s : StudentInput) : in_range s \/ ~ in_range s.
Proof.
  unfold in_range.
  destruct (Z_le_dec 0 (in_Age s)); [| right; lia].
  destruct (Z_le_dec (in_Age s) 120); [| right; lia].
  destruct (Qlt_le_dec (in_GPA s) 0) as [H | H].
  { right. intros (_ & H0 & _). exact (Qlt_not_le _ _ H H0). }
  destruct (Qlt_le_dec 4 (in_GPA s)) as [H' | H'].
  { right. intros (_ & _ & H4). exact (Qlt_not_le _ _ H' H4). }
  left. tauto.
Qed.



Example update_with_quote :
  updateStudent [eve; mkStudent 6 "Bob" 21 3 "Robotics"] "5"
      (inr (mkInput " O'Neil " 31 (25 # 8) " ")) =
    ([mkStudent 5 "O'Neil" 31 (312 # 100) "No Organization";
      mkStudent 6 "Bob" 21 3 "Robotics"],
     mkResponse 200 (MessageJson "Student updated successfully")).
Proof. reflexivity. Qed.

(** X2.  An update is answered 400 exactly when the id is no number for
    [Atoi], the body does not decode, or the age or the GPA is out of range,
    whether the table holds the id or not; and an update that is not
    answered 200 leaves the table as it was. *)
Theorem update_rejections (db : table) (idStr : string) (request : Decoded StudentInput) :
  (StatusCode (snd (updateStudent db idStr request)) = 400 <->
     snd (Atoi idStr) <> None \/
     (exists err, request = inl err) \/
     (exists s, request = inr s /\ ~ in_range s)) /\
  (StatusCode (snd (updateStudent db idStr request)) <> 200 ->
     fst (updateStudent db idStr request) = db).
Proof.
  unfold updateStudent. destruct (Atoi idStr) as [id [e|]] eqn:Eid; cbn [snd fst].
  { split; [| reflexivity]. split; [intros _; left; discriminate | reflexivity]. }
  destruct request as [err | s]; cbn [snd fst StatusCode jsonError].
  { split; [| reflexivity]. split; [intros _; right; left; eauto | reflexivity]. }
  destruct (in_range_dec s) as [Hr | Hr].
  - destruct (range_checks_pass s Hr) as [-> ->].
    assert (Hno : ~ (@None NumError <> None \/
                     (exists err, @inr string StudentInput s = inl err) \/
                     (exists s', @inr string StudentInput s = inr s' /\ ~ in_range s'))).
    { intros [H | [[err H] | [s' [H H']]]]; [now apply H | discriminate |].
      injection H as <-. contradiction. }
    unfold query_count_id.
    destruct (_ =? 0); cbn [snd fst StatusCode jsonError].
    { split; [split; [discriminate | tauto] | reflexivity]. }
    unfold Tx_Exec, BeginTx. cbn [pending snapshot].
    match goal with |- context [exec_update ?t ?q] => destruct (exec_update t q) end;
      cbn [snd fst StatusCode jsonError Rollback Commit snapshot pending];
      (split; [split; [discriminate | tauto] |]); [reflexivity | intros H; now elim H].
  - assert (Hyes : @None NumError <> None \/
                   (exists err, @inr string StudentInput s = inl err) \/
                   (exists s', @inr string StudentInput s = inr s' /\ ~ in_range s')).
    { right. right. eauto. }
    destruct (range_checks_fail s Hr) as [-> | Hg].
    { split; [split; [intros _; exact Hyes | reflexivity] | reflexivity]. }
    destruct ((in_Age s <? 0) || (in_Age s >? 120))%bool.
    { split; [split; [intros _; exact Hyes | reflexivity] | reflexivity]. }
    rewrite Hg. split; [split; [intros _; exact Hyes | reflexivity] | reflexivity].
Qed.

Section Delete.

Variable cast_bigint : string -> option Z.

Lemma filter_filter_same (keep : Student -> bool) (t : table) :
  filter keep (filter keep t) = filter keep t.
Proof.
  induction t as [|r t IH]; [reflexivity |].
  cbn [filter]. destruct (keep r) eqn:E; [| assumption].
  cbn [filter]. now rewrite E, IH.
Qed.

Lemma filter_keeps_all (keep : Student -> bool) (t : table) :
  (forall r, In r t -> keep r = true) -> filter keep t = t.
Proof.
  intros H. induction t as [|r t IH]; [reflexivity |].
  cbn [filter]. rewrite (H r (or_introl eq_refl)), IH; [reflexivity |].
  intros r' Hr'. apply H. now right.
Qed.

(** X3.  A delete whose id text the engine reads as the number [n]
    answers 200 and leaves exactly the rows whose id is not [n], in their
    order; there is no check that the id exists, so the answer is 200 and the
    table is unchanged when no row has the id.  When the engine cannot read
    the text the answer is 500 and the table is unchanged. *)
Theorem delete_removes_the_rows_with_the_id (db : table) (id : string) :
  (forall n, cast_bigint id = Some n ->
     snd (deleteStudent cast_bigint db id) = mkResponse 200 NoBody /\
     (exists keep, fst (deleteStudent cast_bigint db id) = filter keep db /\
                   forall r, keep r = true <-> ID r <> n) /\
     ~ In n (ids (fst (deleteStudent cast_bigint db id))) /\
     (~ In n (ids db) -> fst (deleteStudent cast_bigint db id) = db)) /\
  (cast_bigint id = None ->
     StatusCode (snd (deleteStudent cast_bigint db id)) = 500 /\
     fst (deleteStudent cast_bigint db id) = db).
Proof.
  unfold deleteStudent. split.
  - intros n ->. cbn [fst snd]. split; [reflexivity |]. split; [| split].
    + exists (fun r => negb (ID r =? n)). split; [reflexivity |].
      intros r. rewrite negb_true_iff. apply Z.eqb_neq.
    + unfold exec_delete, ids. rewrite in_map_iff. intros [r [Hid Hin]].
      apply filter_In in Hin. destruct Hin as [_ Hk].
      apply negb_true_iff, Z.eqb_neq in Hk. contradiction.
    + intros Habsent. apply filter_keeps_all. intros r Hr.
      apply negb_true_iff, Z.eqb_neq. intros <-. apply Habsent.
      unfold ids. now apply in_map.
  - intros ->. split; reflexivity.
Qed.

(** X4.  Deleting the same id a second time changes nothing more and is
    answered as the first time (200 when the id text is a number). *)
Theorem delete_twice (db : table) (id : string) :
  deleteStudent cast_bigint (fst (deleteStudent cast_bigint db id)) id =
    (fst (deleteStudent cast_bigint db id), snd (deleteStudent cast_bigint db id)).
Proof.
  unfold deleteStudent. destruct (cast_bigint id) as [n|] eqn:E; cbn [fst snd].
  - unfold exec_delete. now rewrite filter_filter_same.
  - reflexivity.
Qed.

(** X5.  After a delete of an id, an update of the same id with fields in
    range is answered 404 and changes nothing. *)
Theorem update_after_delete (db : table) (idStr : string) (id : Z) (s : StudentInput) :
  cast_bigint idStr = Some id ->
  Atoi idStr = (id, None) ->
  in_range s ->
  updateStudent (fst (deleteStudent cast_bigint db idStr)) idStr (inr s) =
    (fst (deleteStudent cast_bigint db idStr), jsonError 404 "Student not found").
Proof.
  intros Hcast Hid Hrange.
  assert (Habsent : ~ In id (ids (fst (deleteStudent cast_bigint db idStr)))).
  { unfold deleteStudent. rewrite Hcast. cbn [fst].
    unfold exec_delete, ids. rewrite in_map_iff. intros [r [Hr Hin]].
    apply filter_In in Hin. destruct Hin as [_ Hk].
    apply negb_true_iff, Z.eqb_neq in Hk. contradiction. }
  unfold updateStudent. rewrite Hid.
  destruct (range_checks_pass s Hrange) as [-> ->].
  rewrite (count_absent _ id Habsent). reflexivity.
Qed.

End Delete.

(** X5 at a sample input. *)
Lemma update_after_delete_witness :
  cast_by_Atoi "5" = Some 5 /\ Atoi "5" = (5, None) /\ in_range ann /\
  updateStudent (fst (deleteStudent cast_by_Atoi [eve] "5")) "5" (inr ann) =
    (fst (deleteStudent cast_by_Atoi [eve] "5"), jsonError 404 "Student not found").
Proof.
  split; [reflexivity |]. split; [reflexivity |]. split; [exact ann_in_range |].
  exact (update_after_delete cast_by_Atoi [eve] "5" 5 ann eq_refl eq_refl ann_in_range).
Defined.

(* ===================================================================== *)
(** ** More on the ids that insert and bulk insert hand out *)

Lemma max_id_of_is_max (t : table) (m : Z) : is_max m (ids t) -> max_id t = Some m.
Proof.
  intros [Hin Hle]. destruct (max_id t) as [m'|] eqn:E.
  - destruct (max_id_is_max t m' E) as [Hin' Hle'].
    specialize (Hle m' Hin'). specialize (Hle' m Hin). f_equal. lia.
  - apply max_id_none in E. subst t. destruct Hin.
Qed.



(** The insert of a student in range, when the next id is a BIGINT. *)
Lemma insert_in_range (db : table) (s : StudentInput) :
  in_range s ->
  in_int64 (COALESCE (max_id db) 0 + 1) = true ->
  insertStudent db (inr s) =
    (db ++ [normalized (COALESCE (max_id db) 0 + 1) s],
     mkResponse 201 (CreatedJson (COALESCE (max_id db) 0 + 1) "Student created successfully")).
Proof.
  intros Hrange Hfits.
  destruct (range_checks_pass s Hrange) as [Hage Hgpa].
  unfold insertStudent. rewrite Hage, Hgpa.
  unfold query_next_id. rewrite Hfits.
  rewrite exec_insert_ok; [reflexivity | apply age_in_range_fits, Hrange |].
  cbn [ID]. intros i Hi. apply ids_below_coalesced_max in Hi. lia.
Qed.









Section IdReuse.

Variable cast_bigint : string -> option Z.

(** X7.  The id of a student that was inserted and then deleted is
    handed out again: when an insert answers 201 with the id [n] and that id
    is deleted, the table is the one before the insert and the next insert
    answers 201 with the same id [n]. *)
Theorem deleted_id_is_handed_out_again
    (db : table) (s1 s2 : StudentInput) (idStr : string) (n : Z) :
  in_range s1 ->
  in_range s2 ->
  snd (insertStudent db (inr s1)) =
    mkResponse 201 (CreatedJson n "Student created successfully") ->
  cast_bigint idStr = Some n ->
  fst (deleteStudent cast_bigint (fst (insertStudent db (inr s1))) idStr) = db /\
  snd (insertStudent (fst (deleteStudent cast_bigint (fst (insertStudent db (inr s1))) idStr))
         (inr s2)) =
    mkResponse 201 (CreatedJson n "Student created successfully").
Proof.
  intros Hr1 Hr2 Hcreated Hcast.
  destruct (in_int64 (COALESCE (max_id db) 0 + 1)) eqn:Hfits.
  - rewrite (insert_in_range db s1 Hr1 Hfits) in *. cbn [fst snd] in *.
    injection Hcreated as <-.
    assert (Hback : fst (deleteStudent cast_bigint
                           (db ++ [normalized (COALESCE (max_id db) 0 + 1) s1]) idStr) = db).
    { unfold deleteStudent. rewrite Hcast. cbn [fst]. unfold exec_delete.
      rewrite filter_app. cbn [filter ID normalized]. rewrite Z.eqb_refl. cbn [negb].
      rewrite app_nil_r. apply filter_keeps_all. intros r Hr.
      apply negb_true_iff, Z.eqb_neq.
      assert (Hi : In (ID r) (ids db)) by (unfold ids; now apply in_map).
      apply ids_below_coalesced_max in Hi. lia. }
    rewrite Hback. split; [reflexivity |].
    now rewrite (insert_in_range db s2 Hr2 Hfits).
  - exfalso. revert Hcreated. unfold insertStudent.
    destruct (range_checks_pass s1 Hr1) as [-> ->].
    unfold query_next_id. rewrite Hfits. discriminate.
Qed.

End IdReuse.

(** X7 at a sample input: the id 6 twice. *)
Lemma deleted_id_is_handed_out_again_witness :
  in_range ann /\ in_range ann /\
  snd (insertStudent [eve] (inr ann)) =
    mkResponse 201 (CreatedJson 6 "Student created successfully") /\
  cast_by_Atoi "6" = Some 6 /\
  fst (deleteStudent cast_by_Atoi (fst (insertStudent [eve] (inr ann))) "6") = [eve] /\
  snd (insertStudent (fst (deleteStudent cast_by_Atoi (fst (insertStudent [eve] (inr ann))) "6"))
         (inr ann)) =
    mkResponse 201 (CreatedJson 6 "Student created successfully").
Proof.
  split; [exact ann_in_range |]. split; [exact ann_in_range |].
  split; [reflexivity |]. split; [reflexivity |].
  exact (deleted_id_is_handed_out_again cast_by_Atoi [eve] ann ann "6" 6
           ann_in_range ann_in_range eq_refl eq_refl).
Defined.



(** X9.  With the largest BIGINT in the table as an id, the single insert
    of a student in range is answered 500, "Database error: Failed to get
    next ID", and writes no row: the sum MAX(id) + 1 is computed by the
    engine, which refuses it. *)
Theorem insert_fails_at_the_largest_id (db : table) (s : StudentInput) :
  is_max MaxInt64 (ids db) ->
  in_range s ->
  insertStudent db (inr s) =
    (db, http_Error "Database error: Failed to get next ID" 500).
Proof.
  intros Hmax Hrange. unfold insertStudent.
  destruct (range_checks_pass s Hrange) as [-> ->].
  unfold query_next_id. rewrite (max_id_of_is_max db MaxInt64 Hmax). reflexivity.
Qed.

(** X9 at a sample input. *)
Lemma insert_fails_at_the_largest_id_witness :
  is_max MaxInt64 (ids [mkStudent MaxInt64 "Max" 40 3 "Chess"]) /\ in_range ann /\
  insertStudent [mkStudent MaxInt64 "Max" 40 3 "Chess"] (inr ann) =
    ([mkStudent MaxInt64 "Max" 40 3 "Chess"],
     http_Error "Database error: Failed to get next ID" 500).
Proof.
  assert (Hmax : is_max MaxInt64 (ids [mkStudent MaxInt64 "Max" 40 3 "Chess"])).
  { split; [left; reflexivity | intros i [<- | []]; cbn [ID]; lia]. }
  split; [exact Hmax |]. split; [exact ann_in_range |].
  exact (insert_fails_at_the_largest_id _ ann Hmax ann_in_range).
Defined.



(* ===================================================================== *)
(** ** The read handlers *)

Lemma scan_rows_from {A : Type} (l acc : list A) :
  fold_left append_slice l (slice acc) = slice (acc ++ l).
Proof.
  revert acc. induction l as [|x l IH]; intros acc; cbn [fold_left append_slice].
  - now rewrite app_nil_r.
  - rewrite IH, <- app_assoc. reflexivity.
Qed.

Lemma scan_rows_cases {A : Type} (l : list A) :
  scan_rows l = match l with [] => nil_slice | _ => slice l end.
Proof.
  destruct l as [|x l]; [reflexivity |].
  unfold scan_rows. cbn [fold_left append_slice]. now rewrite scan_rows_from.
Qed.

Lemma getStudents_lists_the_table (db : table) :
  getStudents db = mkResponse 200 (StudentsJson db).
Proof.
  unfold getStudents, Query. cbn [forallb].
  rewrite (filter_keeps_all (fun _ => true) db) by reflexivity.
  rewrite scan_rows_cases. destruct db; reflexivity.
Qed.



(** X12.  The list of organizations is answered 200.  Its body is [null],
    not the empty array, when no student has a non-empty organization (the
    empty table included); otherwise it is an array that holds each
    non-empty organization of the table once and nothing else. *)
Theorem organizations_are_listed_once (db : table) :
  fst (getOrganizations db) = 200 /\
  ((forall r, In r db -> OrganizationName r = ""%string) ->
     snd (getOrganizations db) = OrgsNull) /\
  ((exists r, In r db /\ OrganizationName r <> ""%string) ->
     exists orgs,
       snd (getOrganizations db) = OrgsArray orgs /\
       NoDup orgs /\
       forall o, In o orgs <->
                 o <> ""%string /\ exists r, In r db /\ OrganizationName r = o).
Proof.
  unfold getOrganizations, query_distinct_orgs. cbn [fst snd].
  set (l := nodup string_dec (filter nonempty (map OrganizationName db))).
  assert (Hl : forall o, In o l <->
                 o <> ""%string /\ exists r, In r db /\ OrganizationName r = o).
  { intros o. unfold l. rewrite nodup_In, filter_In, in_map_iff, nonempty_true.
    split.
    - intros [[r [Hr Hin]] Hne]. split; [assumption | eauto].
    - intros [Hne [r [Hin Hr]]]. split; [eauto | assumption]. }
  rewrite scan_rows_cases. split; [reflexivity |]. split.
  - intros Hempty. destruct l as [|o l']; [reflexivity | exfalso].
    destruct (proj1 (Hl o) (or_introl eq_refl)) as [Hne [r [Hin Hr]]].
    apply Hne. rewrite <- Hr. now apply Hempty.
  - intros [r [Hin Hne]].
    assert (Ho : In (OrganizationName r) l) by (apply Hl; eauto).
    destruct l as [|o l'] eqn:El; [destruct Ho |].
    exists (o :: l'). split; [reflexivity |]. split; [| exact Hl].
    rewrite <- El. unfold l. apply NoDup_nodup.
Qed.

(** The body is [null] without students and when the only organization is
    empty (a bulk insert stores it so); a name held twice is listed once. *)
Example organizations_samples :
  getOrganizations [] = (200, OrgsNull) /\
  getOrganizations (fst (bulkInsertStudents [] (inr [mkInput "Dee" 20 3 ""]))) =
    (200, OrgsNull) /\
  getOrganizations
    [mkStudent 1 "Anna" 20 3 "A"; mkStudent 2 "Bob" 21 3 ""; mkStudent 3 "Cy" 22 3 "A"] =
    (200, OrgsArray ["A"%string]).
Proof. repeat split; reflexivity. Qed.

(* ===================================================================== *)
(** ** More on the filter *)

Lemma filter_drops_all (keep : Student -> bool) (t : table) :
  (forall r, keep r = false) -> filter keep t = [].
Proof.
  intros H. induction t as [|r t IH]; [reflexivity |].
  cbn [filter]. now rewrite H.
Qed.

Section FilterMore.

Variable ParseFloat : string -> float64 * option NumError.

(** X13.  A filter in which no criterion is complete (of each pair of
    bounds one at least is empty, and there is no organization list)
    answers as the list of all students does: a bound given alone is
    ignored. *)
Theorem filter_without_complete_criterion
    (db : table) (ageMinStr ageMaxStr gpaMinStr gpaMaxStr : string) :
  ageMinStr = ""%string \/ ageMaxStr = ""%string ->
  gpaMinStr = ""%string \/ gpaMaxStr = ""%string ->
  filterStudents ParseFloat db ageMinStr ageMaxStr gpaMinStr gpaMaxStr "" = getStudents db.
Proof.
  intros Hage Hgpa. rewrite getStudents_lists_the_table.
  unfold filterStudents, Query. f_equal. f_equal.
  apply filter_keeps_all. intros r _. apply filter_conds_hold.
  split; [| split].
  - intros [H1 H2]. destruct Hage; contradiction.
  - intros [H1 H2]. destruct Hgpa; contradiction.
  - intros H. now elim H.
Qed.

(** X14.  An age range given upside down (the lower bound above the upper
    one) selects no student: the answer is 200 with the empty array,
    whatever the other parameters. *)
Theorem filter_with_age_range_upside_down
    (db : table) (ageMinStr ageMaxStr gpaMinStr gpaMaxStr orgsStr : string) :
  ageMinStr <> ""%string ->
  ageMaxStr <> ""%string ->
  fst (Atoi ageMaxStr) < fst (Atoi ageMinStr) ->
  filterStudents ParseFloat db ageMinStr ageMaxStr gpaMinStr gpaMaxStr orgsStr =
    mkResponse 200 (StudentsJson []).
Proof.
  intros Hmin Hmax Hlt. unfold filterStudents, Query. f_equal. f_equal.
  apply filter_drops_all. intros r. apply not_true_iff_false. intros Hr.
  apply filter_conds_hold in Hr. destruct Hr as [Hage _].
  specialize (Hage (conj Hmin Hmax)). lia.
Qed.

(** X15.  An organization list can never select a student whose
    organization has a comma in it: the list is cut at every comma, so no
    piece of it is such a name. *)
Theorem filter_never_selects_an_organization_with_a_comma
    (db : table) (ageMinStr ageMaxStr gpaMinStr gpaMaxStr orgsStr : string) :
  orgsStr <> ""%string ->
  exists rows,
    filterStudents ParseFloat db ageMinStr ageMaxStr gpaMinStr gpaMaxStr orgsStr =
      mkResponse 200 (StudentsJson rows) /\
    forall r, In r rows -> has_char "," (OrganizationName r) = false.
Proof.
  intros Horgs. unfold filterStudents, Query. eexists. split; [reflexivity |].
  intros r Hr. apply filter_In in Hr. destruct Hr as [_ Hr].
  apply filter_conds_hold in Hr. destruct Hr as (_ & _ & Hin).
  specialize (Hin Horgs).
  pose proof (Split_pieces_have_no_separator orgsStr ",") as Hpieces.
  rewrite Forall_forall in Hpieces. now apply Hpieces.
Qed.

End FilterMore.

(** X13 at a sample input: an upper age bound and a lower GPA bound alone. *)
Lemma filter_without_complete_criterion_witness :
  (""%string = ""%string \/ "25"%string = ""%string) /\
  ("3"%string = ""%string \/ ""%string = ""%string) /\
  filterStudents ParseFloat_digits names "" "25" "3" "" "" = getStudents names.
Proof.
  split; [left; reflexivity |]. split; [right; reflexivity |].
  exact (filter_without_complete_criterion ParseFloat_digits names "" "25" "3" ""
           (or_introl eq_refl) (or_intror eq_refl)).
Defined.

(** X14 at a sample input: ages from 30 down to 20. *)
Lemma filter_with_age_range_upside_down_witness :
  "30"%string <> ""%string /\ "20"%string <> ""%string /\
  fst (Atoi "20") < fst (Atoi "30") /\
  filterStudents ParseFloat_digits names "30" "20" "" "" "" =
    mkResponse 200 (StudentsJson []).
Proof.
  assert (H30 : "30"%string <> ""%string) by discriminate.
  assert (H20 : "20"%string <> ""%string) by discriminate.
  assert (Hlt : fst (Atoi "20") < fst (Atoi "30")) by (cbn; lia).
  split; [exact H30 |]. split; [exact H20 |]. split; [exact Hlt |].
  exact (filter_with_age_range_upside_down ParseFloat_digits names "30" "20" "" "" ""
           H30 H20 Hlt).
Defined.

(** X15 at a sample input: the student of organization "A,B" is not found
    by the list [A,B]. *)
Lemma filter_never_selects_an_organization_with_a_comma_witness :
  "A,B"%string <> ""%string /\
  exists rows,
    filterStudents ParseFloat_digits names "" "" "" "" "A,B" =
      mkResponse 200 (StudentsJson rows) /\
    forall r, In r rows -> has_char "," (OrganizationName r) = false.
Proof.
  assert (H : "A,B"%string <> ""%string) by discriminate.
  split; [exact H |].
  exact (filter_never_selects_an_organization_with_a_comma ParseFloat_digits names
           "" "" "" "" "A,B" H).
Defined.

(* ===================================================================== *)
(** ** The router *)

(** When no route matches the request in full, the answer is 405 if some
    template matched the path and 404 if none did. *)
Lemma Router_Match_no_full_match (rs : list Route) (method path : string) :
  (forall r, In r rs -> full_match r method path = None) ->
  forall mismatch,
    Router_Match rs method path mismatch =
      if (mismatch || existsb (path_matches path) rs)%bool then MethodNotAllowed else NotFound.
Proof.
  induction rs as [|r rs IH]; intros Hnone mismatch; cbn [Router_Match existsb].
  - now rewrite orb_false_r.
  - pose proof (Hnone r (or_introl eq_refl)) as Hr.
    unfold full_match in Hr. unfold path_matches at 1.
    destruct (match_path (template r) path) as [vars|].
    + destruct (match_method r method); [discriminate |].
      rewrite IH by (intros r' Hr'; apply Hnone; now right).
      cbn [orb]. now rewrite orb_true_r.
    + cbn [orb]. apply IH. intros r' Hr'. apply Hnone. now right.
Qed.

(** When the routes that match the request in full all give the same
    handler and variables, that handler serves it. *)
Lemma Router_Match_full_match (rs : list Route) (method path : string)
    (h : Handler) (vars : option string) :
  (exists r, In r rs /\ full_match r method path = Some (h, vars)) ->
  (forall r x, In r rs -> full_match r method path = Some x -> x = (h, vars)) ->
  forall mismatch, Router_Match rs method path mismatch = Serve h vars.
Proof.
  induction rs as [|r rs IH]; intros [r0 [Hin Hfull]] Hsame mismatch; [destruct Hin |].
  cbn [Router_Match].
  pose proof (Hsame r) as Hr. unfold full_match in Hr, Hfull.
  destruct Hin as [-> | Hin].
  - destruct (match_path (template r0) path) as [v|]; [| discriminate].
    destruct (match_method r0 method); [| discriminate].
    now injection Hfull as -> ->.
  - assert (Hrest : forall m, Router_Match rs method path m = Serve h vars).
    { apply IH; [exists r0; split; assumption |].
      intros r' x Hr' Hx. apply (Hsame r' x); [now right | assumption]. }
    destruct (match_path (template r) path) as [v|]; [| apply Hrest].
    destruct (match_method r method); [| apply Hrest].
    specialize (Hr (handler r, v) (or_introl eq_refl) eq_refl).
    now injection Hr as -> ->.
Qed.

Ltac split_tests :=
  repeat match goal with
         | H : context [String.eqb ?a ?b] |- _ =>
             destruct (String.eqb_spec a b); [subst |]; cbn in H
         | H : context [strip_prefix ?a ?b] |- _ =>
             destruct (strip_prefix a b) eqn:?; cbn in H
         | H : context [if ?c then _ else _] |- _ =>
             destruct c eqn:?; cbn in H
         end;
  try discriminate; try congruence.

(** No request is matched in full by two routes of [main] with different
    results. *)
Lemma routes_do_not_overlap (method path : string) :
  forall r1 r2 x1 x2,
    In r1 routes -> In r2 routes ->
    full_match r1 method path = Some x1 ->
    full_match r2 method path = Some x2 ->
    x1 = x2.
Proof.
  intros r1 r2 x1 x2 H1 H2 F1 F2.
  unfold routes in H1, H2. cbn [In] in H1, H2.
  repeat (destruct H1 as [<- | H1]; [| ]); try (destruct H1);
    (repeat (destruct H2 as [<- | H2]; [| ]); try (destruct H2));
    unfold full_match, match_path, match_method in F1, F2; cbn in F1, F2;
    split_tests.
Qed.

Lemma existsb_Permutation {A : Type} (f : A -> bool) (l l' : list A) :
  Permutation l l' -> existsb f l = existsb f l'.
Proof.
  intros HP. destruct (existsb f l) eqn:E; symmetry.
  - apply existsb_exists in E. destruct E as [x [Hx Hf]].
    apply existsb_exists. exists x. split; [| assumption].
    now apply (Permutation_in _ HP).
  - apply not_true_iff_false. intros E'. apply not_true_iff_false in E. apply E.
    apply existsb_exists in E'. destruct E' as [x [Hx Hf]].
    apply existsb_exists. exists x. split; [| assumption].
    now apply (Permutation_in _ (Permutation_sym HP)).
Qed.

(** X16.  The order in which [main] registers its nine routes does not
    matter: registered in any other order they send every request (any
    method, any path) to the same handler with the same variables, or to the
    same 404 or 405.  No literal path is shadowed by [/students/{id}], since
    the routes that share a path differ in their methods. *)
Theorem dispatch_does_not_depend_on_the_order (rs : list Route) (method path : string) :
  Permutation routes rs ->
  Router_Match rs method path false = dispatch method path.
Proof.
  intros HP. unfold dispatch.
  destruct (existsb (fun r => match full_match r method path with
                              | Some _ => true | None => false end) routes) eqn:E.
  - apply existsb_exists in E. destruct E as [r [Hr Hfull]].
    destruct (full_match r method path) as [[h vars]|] eqn:F; [| discriminate].
    rewrite (Router_Match_full_match routes method path h vars).
    + apply Router_Match_full_match.
      * exists r. split; [now apply (Permutation_in _ HP) | assumption].
      * intros r' x Hr' Hx. apply (Permutation_in _ (Permutation_sym HP)) in Hr'.
        exact (routes_do_not_overlap method path r' r x (h, vars) Hr' Hr Hx F).
    + exists r. split; assumption.
    + intros r' x Hr' Hx.
      exact (routes_do_not_overlap method path r' r x (h, vars) Hr' Hr Hx F).
  - assert (Hnone : forall r, In r routes -> full_match r method path = None).
    { intros r Hr. destruct (full_match r method path) eqn:F; [| reflexivity].
      apply not_true_iff_false in E. exfalso. apply E.
      apply existsb_exists. exists r. split; [assumption | now rewrite F]. }
    rewrite (Router_Match_no_full_match routes method path Hnone).
    rewrite Router_Match_no_full_match.
    + now rewrite (existsb_Permutation _ _ _ HP).
    + intros r Hr. apply Hnone. now apply (Permutation_in _ (Permutation_sym HP)).
Qed.

(** X16 at a sample input: the two parameterized routes registered first. *)
Lemma dispatch_does_not_depend_on_the_order_witness :
  Permutation routes
    [ mkRoute (WithId "/students/") ["PUT"] h_updateStudent;
      mkRoute (WithId "/students/") ["DELETE"] h_deleteStudent;
      mkRoute (Exact "/") [] h_root;
      mkRoute (Exact "/students/search") ["GET"] h_searchStudentsByName;
      mkRoute (Exact "/students/filter") ["GET"] h_filterStudents;
      mkRoute (Exact "/students/bulk") ["POST"] h_bulkInsertStudents;
      mkRoute (Exact "/organizations") ["GET"] h_getOrganizations;
      mkRoute (Exact "/students") ["GET"] h_getStudents;
      mkRoute (Exact "/students") ["POST"] h_insertStudent ] /\
  Router_Match
    [ mkRoute (WithId "/students/") ["PUT"] h_updateStudent;
      mkRoute (WithId "/students/") ["DELETE"] h_deleteStudent;
      mkRoute (Exact "/") [] h_root;
      mkRoute (Exact "/students/search") ["GET"] h_searchStudentsByName;
      mkRoute (Exact "/students/filter") ["GET"] h_filterStudents;
      mkRoute (Exact "/students/bulk") ["POST"] h_bulkInsertStudents;
      mkRoute (Exact "/organizations") ["GET"] h_getOrganizations;
      mkRoute (Exact "/students") ["GET"] h_getStudents;
      mkRoute (Exact "/students") ["POST"] h_insertStudent ]
    "GET" "/students/search" false = dispatch "GET" "/students/search".
Proof.
  assert (HP : Permutation routes
    [ mkRoute (WithId "/students/") ["PUT"] h_updateStudent;
      mkRoute (WithId "/students/") ["DELETE"] h_deleteStudent;
      mkRoute (Exact "/") [] h_root;
      mkRoute (Exact "/students/search") ["GET"] h_searchStudentsByName;
      mkRoute (Exact "/students/filter") ["GET"] h_filterStudents;
      mkRoute (Exact "/students/bulk") ["POST"] h_bulkInsertStudents;
      mkRoute (Exact "/organizations") ["GET"] h_getOrganizations;
      mkRoute (Exact "/students") ["GET"] h_getStudents;
      mkRoute (Exact "/students") ["POST"] h_insertStudent ]).
  { unfold routes. apply Permutation_sym.
    apply (Permutation_cons_app [_; _; _; _; _; _; _] [_]).
    apply (Permutation_cons_app [_; _; _; _; _; _; _] []).
    cbn [app]. apply Permutation_refl. }
  split; [exact HP |].
  exact (dispatch_does_not_depend_on_the_order _ "GET" "/students/search" HP).
Defined.



(** The routes of the interface, a path that is none of them, and methods
    the paths do not take. *)
Example dispatch_samples :
  map (fun mp => dispatch (fst mp) (snd mp))
    [("GET", "/"); ("HEAD", "/"); ("GET", "/students"); ("POST", "/students");
     ("GET", "/students/search"); ("GET", "/students/filter"); ("POST", "/students/bulk");
     ("GET", "/organizations"); ("PUT", "/students/7"); ("DELETE", "/students/7");
     ("GET", "/students/7"); ("DELETE", "/students"); ("GET", "/students/7/grades");
     ("GET", "/students/"); ("GET", "/teachers")]%string =
    [Serve h_root None; Serve h_root None; Serve h_getStudents None;
     Serve h_insertStudent None; Serve h_searchStudentsByName None;
     Serve h_filterStudents None; Serve h_bulkInsertStudents None;
     Serve h_getOrganizations None; Serve h_updateStudent (Some "7"%string);
     Serve h_deleteStudent (Some "7"%string);
     MethodNotAllowed; MethodNotAllowed; NotFound; NotFound; NotFound].
Proof. reflexivity. Qed.

(* ===================================================================== *)
(** ** The texts that insert and update store *)

Lemma ascii_space_width (c : ascii) (rest : list Z) :
  ascii_space c = true ->
  space_width (code c :: rest) = 1%nat /\ space_width_rev (code c :: rest) = 1%nat.
Proof.
  unfold ascii_space. intros H.
  assert (Hc : code c = 9 \/ code c = 10 \/ code c = 11 \/ code c = 12 \/ code c = 13 \/
               code c = 32).
  { apply orb_true_iff in H. destruct H as [H | H].
    - apply andb_true_iff in H. destruct H as [H1 H2]. apply Z.leb_le in H1, H2. lia.
    - apply Z.eqb_eq in H. lia. }
  destruct Hc as [-> | [-> | [-> | [-> | [-> | ->]]]]]; split; reflexivity.
Qed.

Lemma trim_with_width_zero (width : list Z -> nat) :
  width [] = 0%nat ->
  forall fuel l,
    (List.length l <= fuel)%nat ->
    width (map code (trim_with width fuel l)) = 0%nat.
Proof.
  intros Hnil. induction fuel as [|fuel IH]; intros l Hlen.
  - destruct l; [exact Hnil | cbn in Hlen; lia].
  - cbn [trim_with]. destruct (width (map code l)) as [|w] eqn:E; [exact E |].
    apply IH. rewrite length_skipn.
    destruct l; [cbn in E; rewrite Hnil in E; discriminate | cbn [List.length] in *; lia].
Qed.

Lemma trim_with_is_skipn (width : list Z -> nat) :
  forall fuel l, exists k, trim_with width fuel l = skipn k l.
Proof.
  induction fuel as [|fuel IH]; intros l.
  - now exists 0%nat.
  - cbn [trim_with]. destruct (width (map code l)) as [|w]; [now exists 0%nat |].
    destruct (IH (skipn (S w) l)) as [k ->]. exists (S w + k)%nat.
    now rewrite skipn_skipn, Nat.add_comm.
Qed.

(** What [TrimSpace] returns neither starts nor ends with white space of
    ASCII. *)
Lemma TrimSpace_has_no_outer_space (s : string) : outer_space (TrimSpace s) = false.
Proof.
  unfold outer_space, TrimSpace. rewrite list_ascii_of_string_of_list_ascii.
  set (l1 := trim_with space_width (List.length (list_ascii_of_string s))
               (list_ascii_of_string s)).
  set (r := trim_with space_width_rev (List.length l1) (rev l1)).
  assert (H1 : space_width (map code l1) = 0%nat)
    by (apply trim_with_width_zero; [reflexivity | apply Nat.le_refl]).
  assert (Hr : space_width_rev (map code r) = 0%nat).
  { apply trim_with_width_zero; [reflexivity | rewrite length_rev; apply Nat.le_refl]. }
  rewrite rev_involutive. apply orb_false_iff. split.
  - destruct (trim_with_is_skipn space_width_rev (List.length l1) (rev l1)) as [k Hk].
    fold r in Hk. rewrite Hk, skipn_rev, rev_involutive.
    destruct l1 as [|c l1']; [now rewrite firstn_nil |].
    destruct (List.length (c :: l1') - k)%nat; [reflexivity |].
    cbn [firstn first_is_space].
    destruct (ascii_space c) eqn:Ec; [| reflexivity].
    cbn [map] in H1. rewrite (proj1 (ascii_space_width c _ Ec)) in H1. discriminate.
  - destruct r as [|c r']; [reflexivity |].
    cbn [first_is_space]. destruct (ascii_space c) eqn:Ec; [| reflexivity].
    cbn [map] in Hr. rewrite (proj2 (ascii_space_width c _ Ec)) in Hr. discriminate.
Qed.

Lemma organization_or_default_is_tidy (org : string) :
  outer_space (organization_or_default org) = false /\
  organization_or_default org <> ""%string.
Proof.
  unfold organization_or_default.
  destruct (String.eqb (TrimSpace org) "") eqn:E.
  - split; [reflexivity | discriminate].
  - split; [apply TrimSpace_has_no_outer_space | now apply String.eqb_neq].
Qed.

Lemma insert_cases (db : table) (request : Decoded StudentInput) :
  fst (insertStudent db request) = db \/
  exists id s, fst (insertStudent db request) = db ++ [normalized id s].
Proof.
  unfold insertStudent. destruct request as [err | s]; [now left |].
  destruct ((in_Age s <? 0) || (in_Age s >? 120))%bool; [now left |].
  destruct (Qltb (in_GPA s) 0 || Qltb 4 (in_GPA s))%bool; [now left |].
  destruct (query_next_id db) as [e | newID]; [now left |].
  match goal with |- context [exec_insert ?t ?r] =>
    destruct (exec_insert t r) as [e | db'] eqn:E; [now left | right] end.
  apply exec_insert_inv in E. destruct E as [-> _]. now exists newID, s.
Qed.

Lemma update_cases (db : table) (idStr : string) (request : Decoded StudentInput) :
  fst (updateStudent db idStr request) = db \/
  exists id s,
    fst (updateStudent db idStr request) =
      map (fun r => if ID r =? id then updated r s else r) db.
Proof.
  unfold updateStudent. destruct (Atoi idStr) as [id [e|]]; [now left |].
  destruct request as [err | s]; [now left |].
  destruct (in_range_dec s) as [Hr | Hr].
  - destruct (range_checks_pass s Hr) as [-> ->].
    unfold query_count_id. destruct (_ =? 0); [now left |].
    right. exists id, s.
    unfold Tx_Exec, exec_update, BeginTx.
    cbn [pending snapshot name_literal org_literal age_literal gpa_literal id_literal].
    rewrite !sql_unquote_ReplaceAll.
    rewrite (age_in_range_fits (in_Age s)) by apply Hr.
    reflexivity.
  - left. destruct (range_checks_fail s Hr) as [-> | Hg]; [reflexivity |].
    destruct ((in_Age s <? 0) || (in_Age s >? 120))%bool; [reflexivity |].
    now rewrite Hg.
Qed.

Section Tidy.

Variable cast_bigint : string -> option Z.

Lemma serve_keeps_tidy (db : table) (req : Request) :
  (forall b, req <> PostBulk b) ->
  Forall tidy db -> Forall tidy (fst (serve cast_bigint db req)).
Proof.
  intros Hnobulk Htidy. destruct req as [b | b | id b | id]; cbn [serve].
  - destruct (insert_cases db b) as [-> | [id [s ->]]]; [assumption |].
    apply Forall_app. split; [assumption |]. constructor; [| constructor].
    unfold tidy, normalized. cbn [Name OrganizationName].
    split; [apply TrimSpace_has_no_outer_space | apply organization_or_default_is_tidy].
  - now elim (Hnobulk b).
  - destruct (update_cases db id b) as [-> | [n [s ->]]]; [assumption |].
    apply Forall_map. eapply Forall_impl; [| exact Htidy].
    intros r Hr. destruct (ID r =? n); [| assumption].
    unfold tidy, updated. cbn [Name OrganizationName].
    split; [apply TrimSpace_has_no_outer_space | apply organization_or_default_is_tidy].
  - destruct (delete_only_removes cast_bigint db id) as [keep ->].
    apply Forall_forall. intros r Hr. apply filter_In in Hr.
    rewrite Forall_forall in Htidy. now apply Htidy.
Qed.

(** X18.  As long as no bulk insert is served, every row of the table has
    a name and an organization without white space (space, tab, line break)
    at either end, and an organization that is not empty: insert and update
    store trimmed texts and the sentinel for an empty organization, and
    delete stores nothing.  This holds for the table after any such requests
    from the start of the service, and each such request keeps it. *)
Theorem stored_texts_stay_tidy :
  (forall db req, (forall b, req <> PostBulk b) ->
     Forall tidy db -> Forall tidy (fst (serve cast_bigint db req))) /\
  (forall reqs, (forall b, ~ In (PostBulk b) reqs) ->
     Forall tidy (serve_all cast_bigint initDB reqs)).
Proof.
  split; [exact serve_keeps_tidy |].
  intros reqs. unfold serve_all.
  assert (H : forall db, (forall b, ~ In (PostBulk b) reqs) -> Forall tidy db ->
                         Forall tidy (fold_left (fun t req => fst (serve cast_bigint t req))
                                        reqs db)).
  { induction reqs as [|req reqs IH]; intros db Hnobulk Htidy; [assumption |].
    cbn [fold_left]. apply IH.
    - intros b Hb. apply (Hnobulk b). now right.
    - apply serve_keeps_tidy; [| assumption].
      intros b ->. apply (Hnobulk b). now left. }
  intros Hnobulk. apply H; [assumption | constructor].
Qed.

End Tidy.

(** A bulk insert does store an untrimmed name and an empty organization. *)
Example bulk_insert_is_not_tidy :
  fst (bulkInsertStudents initDB (inr [mkInput " Dee " 20 3 ""])) =
    [mkStudent 1 " Dee " 20 3 ""] /\
  outer_space " Dee " = true.
Proof. split; reflexivity. Qed.
